(** * AI Voice Note Summarizer: the upload-transcribe-summarize pipeline

    A shallow embedding of the two programs of the repository:

    - the Express backend (index.js): the handler of
      [POST /api/transcribe-and-summarize], with the file system, the two
      outbound providers, the console and the HTTP response as an explicit
      world threaded through a state-and-exception monad;
    - the React frontend (App.js): [handleSubmit] and the submit button of
      the render function, as a trace of the effects they perform.

    JavaScript strings are represented by [string], holding the UTF-8 bytes
    of the text.  JavaScript numbers are IEEE 754 binary64 values,
    represented by [spec_float]. *)

From Stdlib Require Import ZArith NArith Ascii String List Bool Lia.
From Stdlib Require Import SpecFloat DecimalString.
From stdpp Require Import base option list gmap strings.

Set Warnings "-register-all".

Local Open Scope string_scope.
Local Open Scope list_scope.

(** ** JavaScript values *)

(** The values that JSON text, provider replies and response bodies are
    made of.  An object is the list of its own properties in insertion
    order, each key occurring once; the engine's reordering of
    integer-like keys is not modelled. *)
Inductive value : Type :=
  | VUndefined
  | VNull
  | VBool (b : bool)
  | VNumber (f : spec_float)
  | VString (s : string)
  | VArray (items : list value)
  | VObject (fields : list (string * value)).

(** ToBoolean: [undefined], [null], [false], [+0], [-0], [NaN] and the
    empty string are falsy; every object and array is truthy. *)
Definition truthy (v : value) : bool :=
  match v with
  | VUndefined | VNull => false
  | VBool b => b
  | VNumber (S754_zero _) | VNumber S754_nan => false
  | VNumber _ => true
  | VString s => negb (String.eqb s EmptyString)
  | VArray _ | VObject _ => true
  end.

(** [a || b] on values. *)
Definition js_or (a b : value) : value := if truthy a then a else b.

(** Own-property read [o.k] on an object's property list. *)
Fixpoint obj_get (fields : list (string * value)) (k : string) : value :=
  match fields with
  | [] => VUndefined
  | (k', v) :: rest => if String.eqb k k' then v else obj_get rest k
  end.

(** CreateDataProperty: a repeated key overwrites the earlier value. *)
Fixpoint obj_set (fields : list (string * value)) (k : string) (v : value)
  : list (string * value) :=
  match fields with
  | [] => [(k, v)]
  | (k', v') :: rest =>
      if String.eqb k k' then (k, v) :: rest else (k', v') :: obj_set rest k v
  end.

(** ** JSON.parse *)

Module JSON.

(** *** Numbers: decimal literal to binary64, round to nearest even *)

Definition prec : Z := 53.
Definition emax : Z := 1024.

(** The double nearest to [(-1)^neg * d * 10^e]. *)
Definition decimal_to_double (neg : bool) (d : Z) (e : Z) : spec_float :=
  match d with
  | Zpos _ =>
      if (0 <=? e)%Z
      then binary_normalize prec emax ((if neg then Z.opp d else d) * 10 ^ e) 0 false
      else
        let '(q, e', l) := SFdiv_core_binary prec emax d 0 (10 ^ (- e)) 0 in
        binary_round_aux prec emax neg q e' l
  | _ => S754_zero neg
  end.

Definition digit_of (c : ascii) : option Z :=
  let n := N_of_ascii c in
  if ((48 <=? n) && (n <=? 57))%N then Some (Z.of_N n - 48)%Z else None.

Fixpoint span_digits (l : list ascii) : list Z * list ascii :=
  match l with
  | [] => ([], [])
  | c :: rest =>
      match digit_of c with
      | Some d => let '(ds, tl) := span_digits rest in (d :: ds, tl)
      | None => ([], l)
      end
  end.

Definition digits_value (ds : list Z) : Z :=
  fold_left (fun acc d => acc * 10 + d)%Z ds 0%Z.

(** The integer part is a single [0] or starts with a nonzero digit. *)
Definition int_part_ok (ds : list Z) : bool :=
  match ds with
  | [] => false
  | [_] => true
  | d :: _ => negb (d =? 0)%Z
  end.

(** The exponent part: empty, or [e]/[E], an optional sign and digits, up
    to the end of the lexeme. *)
Definition exponent_of (l : list ascii) : option Z :=
  match l with
  | [] => Some 0%Z
  | c :: rest =>
      if (Ascii.eqb c "e" || Ascii.eqb c "E")%char then
        let '(sneg, rest') :=
          match rest with
          | s :: r =>
              if Ascii.eqb s "-" then (true, r)
              else if Ascii.eqb s "+" then (false, r)
              else (false, rest)
          | [] => (false, rest)
          end in
        match span_digits rest' with
        | ((_ :: _) as es, []) =>
            Some (if sneg then Z.opp (digits_value es) else digits_value es)
        | _ => None
        end
      else None
  end.

(** A whole number lexeme: an optional minus sign; an integer part; an
    optional fraction (a point and at least one digit); an optional
    exponent. *)
Definition number_of_lexeme (l : list ascii) : option spec_float :=
  let '(neg, l1) :=
    match l with
    | c :: r => if Ascii.eqb c "-" then (true, r) else (false, l)
    | [] => (false, l)
    end in
  let '(ds, l2) := span_digits l1 in
  if negb (int_part_ok ds) then None else
  let frac :=
    match l2 with
    | c :: r =>
        if Ascii.eqb c "." then
          match span_digits r with
          | ((_ :: _) as fs, l3) => Some (fs, l3)
          | _ => None
          end
        else Some ([], l2)
    | [] => Some ([], l2)
    end in
  match frac with
  | None => None
  | Some (fs, l3) =>
      match exponent_of l3 with
      | None => None
      | Some ex =>
          Some (decimal_to_double neg (digits_value (ds ++ fs))
                  (ex - Z.of_nat (length fs)))
      end
  end.

(** *** Strings: escapes and their UTF-8 encoding *)

(** A character of a string literal: a byte taken as it stands, or the
    UTF-16 code unit of a [\uXXXX] escape. *)
Inductive sitem : Type :=
  | Raw (c : ascii)
  | Esc (cu : N).

Definition utf8 (cp : N) : list ascii :=
  let byte n := ascii_of_N n in
  let cont n := byte (N.lor 128 (N.land n 63)) in
  if (cp <? 128)%N then [byte cp]
  else if (cp <? 2048)%N then
    [byte (N.lor 192 (N.shiftr cp 6)); cont cp]
  else if (cp <? 65536)%N then
    [byte (N.lor 224 (N.shiftr cp 12)); cont (N.shiftr cp 6); cont cp]
  else
    [byte (N.lor 240 (N.shiftr cp 18)); cont (N.shiftr cp 12);
     cont (N.shiftr cp 6); cont cp].

Definition is_high_surrogate (cu : N) : bool := ((55296 <=? cu) && (cu <=? 56319))%N.
Definition is_low_surrogate (cu : N) : bool := ((56320 <=? cu) && (cu <=? 57343))%N.

(** An escaped high surrogate followed by an escaped low surrogate is one
    code point; every other escape stands for itself. *)
Fixpoint encode_items (l : list sitem) : list ascii :=
  match l with
  | [] => []
  | Raw c :: rest => c :: encode_items rest
  | Esc hi :: rest =>
      match rest with
      | Esc lo :: rest' =>
          if is_high_surrogate hi && is_low_surrogate lo
          then utf8 (65536 + (hi - 55296) * 1024 + (lo - 56320))%N ++ encode_items rest'
          else utf8 hi ++ encode_items rest
      | _ => utf8 hi ++ encode_items rest
      end
  end.

Definition string_of_items (l : list sitem) : string :=
  string_of_list_ascii (encode_items l).

Definition hex_digit_of (c : ascii) : option N :=
  let n := N_of_ascii c in
  if ((48 <=? n) && (n <=? 57))%N then Some (n - 48)%N
  else if ((65 <=? n) && (n <=? 70))%N then Some (n - 55)%N
  else if ((97 <=? n) && (n <=? 102))%N then Some (n - 87)%N
  else None.

(** *** The lexer, one character at a time *)

Inductive token : Type :=
  | TLBrace | TRBrace | TLBracket | TRBracket | TColon | TComma
  | TString (s : string)
  | TNumber (f : spec_float)
  | TTrue | TFalse | TNull.

Inductive lmode : Type :=
  | LStart
  | LString (acc : list sitem)
  | LEscape (acc : list sitem)
  | LUnicode (acc : list sitem) (seen : nat) (cu : N)
  | LNumber (acc : list ascii)
  | LKeyword (rest : list ascii) (t : token).

Definition DQUOTE : ascii := ascii_of_N 34.
Definition BACKSLASH : ascii := ascii_of_N 92.

Definition is_ws (c : ascii) : bool :=
  let n := N_of_ascii c in
  ((n =? 32) || (n =? 9) || (n =? 10) || (n =? 13))%N.

Definition is_number_char (c : ascii) : bool :=
  match digit_of c with
  | Some _ => true
  | None =>
      (Ascii.eqb c "-" || Ascii.eqb c "+" || Ascii.eqb c "."
       || Ascii.eqb c "e" || Ascii.eqb c "E")%char
  end.

(** Between tokens.  The result is the next mode and the tokens completed
    by this character, latest first. *)
Definition lex_start (c : ascii) : option (lmode * list token) :=
  if is_ws c then Some (LStart, [])
  else if Ascii.eqb c "{" then Some (LStart, [TLBrace])
  else if Ascii.eqb c "}" then Some (LStart, [TRBrace])
  else if Ascii.eqb c "[" then Some (LStart, [TLBracket])
  else if Ascii.eqb c "]" then Some (LStart, [TRBracket])
  else if Ascii.eqb c ":" then Some (LStart, [TColon])
  else if Ascii.eqb c "," then Some (LStart, [TComma])
  else if Ascii.eqb c DQUOTE then Some (LString [], [])
  else if Ascii.eqb c "t" then Some (LKeyword (list_ascii_of_string "rue") TTrue, [])
  else if Ascii.eqb c "f" then Some (LKeyword (list_ascii_of_string "alse") TFalse, [])
  else if Ascii.eqb c "n" then Some (LKeyword (list_ascii_of_string "ull") TNull, [])
  else if Ascii.eqb c "-" then Some (LNumber [c], [])
  else match digit_of c with
       | Some _ => Some (LNumber [c], [])
       | None => None
       end.

Definition lex_escape (acc : list sitem) (c : ascii) : option lmode :=
  let simple n := Some (LString (Raw (ascii_of_N n) :: acc)) in
  if Ascii.eqb c DQUOTE then simple 34%N
  else if Ascii.eqb c BACKSLASH then simple 92%N
  else if Ascii.eqb c "/" then simple 47%N
  else if Ascii.eqb c "b" then simple 8%N
  else if Ascii.eqb c "f" then simple 12%N
  else if Ascii.eqb c "n" then simple 10%N
  else if Ascii.eqb c "r" then simple 13%N
  else if Ascii.eqb c "t" then simple 9%N
  else if Ascii.eqb c "u" then Some (LUnicode acc 0 0%N)
  else None.

Definition lex_step (m : lmode) (c : ascii) : option (lmode * list token) :=
  match m with
  | LStart => lex_start c
  | LString acc =>
      if Ascii.eqb c DQUOTE then Some (LStart, [TString (string_of_items (rev acc))])
      else if Ascii.eqb c BACKSLASH then Some (LEscape acc, [])
      else if (N_of_ascii c <? 32)%N then None
      else Some (LString (Raw c :: acc), [])
  | LEscape acc =>
      match lex_escape acc c with
      | Some m' => Some (m', [])
      | None => None
      end
  | LUnicode acc seen cu =>
      match hex_digit_of c with
      | None => None
      | Some d =>
          let cu' := (cu * 16 + d)%N in
          if (seen =? 3)%nat then Some (LString (Esc cu' :: acc), [])
          else Some (LUnicode acc (S seen) cu', [])
      end
  | LNumber acc =>
      if is_number_char c then Some (LNumber (c :: acc), [])
      else
        match number_of_lexeme (rev acc), lex_start c with
        | Some f, Some (m', ts) => Some (m', ts ++ [TNumber f])
        | _, _ => None
        end
  | LKeyword rest t =>
      match rest with
      | c' :: rest' =>
          if Ascii.eqb c c'
          then match rest' with
               | [] => Some (LStart, [t])
               | _ => Some (LKeyword rest' t, [])
               end
          else None
      | [] => None
      end
  end.

(** [toks] holds the tokens read so far, latest first. *)
Fixpoint lex (m : lmode) (toks : list token) (s : string) : option (list token) :=
  match s with
  | EmptyString =>
      match m with
      | LStart => Some (rev toks)
      | LNumber acc =>
          match number_of_lexeme (rev acc) with
          | Some f => Some (rev (TNumber f :: toks))
          | None => None
          end
      | _ => None
      end
  | String c s' =>
      match lex_step m c with
      | Some (m', ts) => lex m' (ts ++ toks) s'
      | None => None
      end
  end.

(** *** The parser, one token at a time *)

(** An enclosing array with its elements so far (latest first), or an
    enclosing object with its properties so far and the key whose value is
    being read. *)
Inductive frame : Type :=
  | FArray (acc : list value)
  | FObject (acc : list (string * value)) (key : string).

Inductive pstate : Type :=
  | PValue (st : list frame)
  | PArrayFirst (st : list frame)
  | PArrayNext (acc : list value) (st : list frame)
  | PObjectFirst (st : list frame)
  | PObjectKey (acc : list (string * value)) (st : list frame)
  | PColon (acc : list (string * value)) (key : string) (st : list frame)
  | PObjectNext (acc : list (string * value)) (st : list frame)
  | PDone (v : value).

(** A value is complete: hand it to the enclosing frame. *)
Definition complete (v : value) (st : list frame) : pstate :=
  match st with
  | [] => PDone v
  | FArray acc :: st' => PArrayNext (v :: acc) st'
  | FObject acc key :: st' => PObjectNext (obj_set acc key v) st'
  end.

Definition parse_value_start (st : list frame) (t : token) : option pstate :=
  match t with
  | TLBracket => Some (PArrayFirst st)
  | TLBrace => Some (PObjectFirst st)
  | TString s => Some (complete (VString s) st)
  | TNumber f => Some (complete (VNumber f) st)
  | TTrue => Some (complete (VBool true) st)
  | TFalse => Some (complete (VBool false) st)
  | TNull => Some (complete VNull st)
  | _ => None
  end.

Definition parse_step (p : pstate) (t : token) : option pstate :=
  match p with
  | PValue st => parse_value_start st t
  | PArrayFirst st =>
      match t with
      | TRBracket => Some (complete (VArray []) st)
      | _ => parse_value_start (FArray [] :: st) t
      end
  | PArrayNext acc st =>
      match t with
      | TComma => Some (PValue (FArray acc :: st))
      | TRBracket => Some (complete (VArray (rev acc)) st)
      | _ => None
      end
  | PObjectFirst st =>
      match t with
      | TRBrace => Some (complete (VObject []) st)
      | TString k => Some (PColon [] k st)
      | _ => None
      end
  | PObjectKey acc st =>
      match t with
      | TString k => Some (PColon acc k st)
      | _ => None
      end
  | PColon acc k st =>
      match t with
      | TColon => Some (PValue (FObject acc k :: st))
      | _ => None
      end
  | PObjectNext acc st =>
      match t with
      | TComma => Some (PObjectKey acc st)
      | TRBrace => Some (complete (VObject acc) st)
      | _ => None
      end
  | PDone _ => None
  end.

Fixpoint parse_tokens (p : pstate) (ts : list token) : option value :=
  match ts with
  | [] => match p with PDone v => Some v | _ => None end
  | t :: ts' =>
      match parse_step p t with
      | Some p' => parse_tokens p' ts'
      | None => None
      end
  end.

(** [JSON.parse(text)] for a string [text], without a reviver: [None]
    stands for the SyntaxError it throws.  The text is lexed as a whole and
    the tokens are then parsed; both passes stop at the first error, so
    the result is [Some] exactly for the texts of the JSON grammar. *)
Definition parse (text : string) : option value :=
  match lex LStart [] text with
  | Some ts => parse_tokens (PValue []) ts
  | None => None
  end.

(** *** JSON.stringify, for a summary of strings *)

Definition hex_char (n : N) : ascii :=
  if (n <? 10)%N then ascii_of_N (48 + n) else ascii_of_N (87 + n).

(** QuoteJSONString, one character: the short escapes, [\u00xx] for the
    other control characters, and every other character as it stands. *)
Definition quote_char (c : ascii) : string :=
  let n := N_of_ascii c in
  let esc x := String BACKSLASH (String x EmptyString) in
  if (n =? 8)%N then esc "b"%char
  else if (n =? 9)%N then esc "t"%char
  else if (n =? 10)%N then esc "n"%char
  else if (n =? 12)%N then esc "f"%char
  else if (n =? 13)%N then esc "r"%char
  else if (n =? 34)%N then esc DQUOTE
  else if (n =? 92)%N then esc BACKSLASH
  else if (n <? 32)%N then
    String BACKSLASH
      (String "u" (String "0" (String "0"
         (String (hex_char (n / 16)) (String (hex_char (n mod 16)) EmptyString)))))
  else String c EmptyString.

Fixpoint quote_chars (s : string) : string :=
  match s with
  | EmptyString => EmptyString
  | String c s' => String.append (quote_char c) (quote_chars s')
  end.

Definition quote (s : string) : string :=
  String DQUOTE (String.append (quote_chars s) (String DQUOTE EmptyString)).

Fixpoint stringify_more (l : list string) : string :=
  match l with
  | [] => EmptyString
  | s :: rest => String "," (String.append (quote s) (stringify_more rest))
  end.

(** [JSON.stringify] of an array of strings. *)
Definition stringify_strings (l : list string) : string :=
  String "["
    (String.append
       match l with
       | [] => EmptyString
       | s :: rest => String.append (quote s) (stringify_more rest)
       end
       "]").

(** [JSON.stringify({ key_points, action_items })] for two arrays of
    strings. *)
Definition stringify_summary (key_points action_items : list string) : string :=
  String "{"
    (String.append (quote "key_points")
       (String ":"
          (String.append (stringify_strings key_points)
             (String ","
                (String.append (quote "action_items")
                   (String ":"
                      (String.append (stringify_strings action_items) "}"))))))).

(** The tokens of [stringify_strings l]. *)
Definition more_tokens (l : list string) : list token :=
  flat_map (fun s => [TComma; TString s]) l.

Definition strings_tokens (l : list string) : list token :=
  TLBracket
  :: match l with
     | [] => []
     | s :: rest => TString s :: more_tokens rest
     end
  ++ [TRBracket].

(** The item that the lexer reads back from [quote_char c]. *)
Definition item_of (c : ascii) : sitem :=
  let n := N_of_ascii c in
  if ((n <? 32) && negb ((n =? 8) || (n =? 9) || (n =? 10) || (n =? 12) || (n =? 13)))%N
  then Esc n
  else Raw c.

End JSON.

(** ** String constants *)

Definition NL : string := String (ascii_of_N 10) EmptyString.
Definition DQ : string := String JSON.DQUOTE EmptyString.

(** A double-quoted piece of text inside a longer string. *)
Definition quoted (s : string) : string := DQ +:+ s +:+ DQ.

(** ** The backend: index.js *)

Module Backend.

(** *** Errors *)

(** What the handler reads from a caught error: [error.message],
    [error.response] (set by axios when the provider answered with a
    non-success status) and [error.config?.url]. *)
Record upstream_response : Type := {
  status : Z;
  data : value
}.

Record js_error : Type := {
  message : string;
  response : option upstream_response;
  config_url : option string
}.

Definition plain_error (msg : string) : js_error :=
  {| message := msg; response := None; config_url := None |}.

(** The engine's TypeError for a property read on [undefined]. *)
Definition cannot_read (prop : string) : js_error :=
  plain_error ("Cannot read properties of undefined (reading '" +:+ prop +:+ "')").

Definition ENOENT (syscall path : string) : js_error :=
  plain_error ("ENOENT: no such file or directory, " +:+ syscall +:+ " '" +:+ path +:+ "'").

Definition ERR_HTTP_HEADERS_SENT : js_error :=
  plain_error "Cannot set headers after they are sent to the client".

(** *** The two providers *)

Inductive outcome (A : Type) : Type :=
  | Resolved (a : A)
  | Rejected (e : js_error).
Arguments Resolved {A} a.
Arguments Rejected {A} e.

(** The transcript object of the transcription provider; [text] is [None]
    when the field is [null] or missing. *)
Record transcript : Type := { text : option string }.

(** The chat-completion request built by the handler. *)
Record chat_request : Type := {
  url : string;
  model : string;
  messages : list (string * string);
  headers : list (string * string)
}.

(** The reply of the chat-completion provider, as far as the handler reads
    it: [data.choices[0].message.content].  The content of a message is a
    string, [null], or missing. *)
Inductive content : Type :=
  | ContentMissing
  | ContentNull
  | ContentText (s : string).

(** A choice and its message: [None] when the choice has no [message]. *)
Record choice : Type := { choice_message : option content }.

(** The [data] of the reply: [None] when it has no [choices]. *)
Record chat_response : Type := { choices : option (list choice) }.

(** What is outside the program: the answer of the transcription provider
    to an audio, the answer of the completion provider to a request, and
    the environment variable with the credential. *)
Record providers : Type := {
  transcription : list Byte.byte -> outcome transcript;
  completion : chat_request -> outcome chat_response;
  OPENROUTER_API_KEY : option string
}.

(** *** The world of one request *)

Inductive outbound : Type :=
  | CallTranscribe (audio : list Byte.byte)
  | CallChat (req : chat_request).

Record http_response : Type := {
  status_code : Z;
  body : value
}.

(** [fs]: the files on disk; [calls]: the outbound calls made so far, in
    order; [console]: the lines written by [console.error], in order;
    [res]: the response sent to the client, if one has been sent. *)
Record world : Type := {
  fs : gmap string (list Byte.byte);
  calls : list outbound;
  console : list (list value);
  res : option http_response
}.

Definition start (files : gmap string (list Byte.byte)) : world :=
  {| fs := files; calls := []; console := []; res := None |}.

(** *** Computations that change the world and may throw *)

Inductive result (A : Type) : Type :=
  | Returned (a : A)
  | Thrown (e : js_error).
Arguments Returned {A} a.
Arguments Thrown {A} e.

Definition M (A : Type) : Type := world -> result A * world.

#[export] Instance M_ret : MRet M := fun A a w => (Returned a, w).

#[export] Instance M_bind : MBind M := fun A B k m w =>
  match m w with
  | (Returned a, w') => k a w'
  | (Thrown e, w') => (Thrown e, w')
  end.

Definition throw {A : Type} (e : js_error) : M A := fun w => (Thrown e, w).

(** [try { body } catch (error) { handler error }] *)
Definition try_catch {A : Type} (body : M A) (handler : js_error -> M A) : M A :=
  fun w =>
    match body w with
    | (Returned a, w') => (Returned a, w')
    | (Thrown e, w') => handler e w'
    end.

Definition await {A : Type} (o : outcome A) : M A :=
  match o with
  | Resolved a => mret a
  | Rejected e => throw e
  end.

(** An expression that touches no state but may throw. *)
Definition eval {A : Type} (r : result A) : M A := fun w => (r, w).

(** *** File system, console and response *)

Definition readFileSync (path : string) : M (list Byte.byte) := fun w =>
  match fs w !! path with
  | Some bytes => (Returned bytes, w)
  | None => (Thrown (ENOENT "open" path), w)
  end.

Definition unlinkSync (path : string) : M unit := fun w =>
  match fs w !! path with
  | Some _ =>
      (Returned tt,
       {| fs := delete path (fs w); calls := calls w;
          console := console w; res := res w |})
  | None => (Thrown (ENOENT "unlink" path), w)
  end.

Definition writeFile (path : string) (bytes : list Byte.byte) : M unit := fun w =>
  (Returned tt,
   {| fs := <[path := bytes]> (fs w); calls := calls w;
      console := console w; res := res w |}).

Definition console_error (line : list value) : M unit := fun w =>
  (Returned tt,
   {| fs := fs w; calls := calls w;
      console := console w ++ [line]; res := res w |}).

Definition log_call (c : outbound) : M unit := fun w =>
  (Returned tt,
   {| fs := fs w; calls := calls w ++ [c];
      console := console w; res := res w |}).

(** [res.status(code).json(body)]; a second response on the same request
    throws and leaves the first one in place. *)
Definition res_status_json (code : Z) (b : value) : M unit := fun w =>
  match res w with
  | Some _ => (Thrown ERR_HTTP_HEADERS_SENT, w)
  | None =>
      (Returned tt,
       {| fs := fs w; calls := calls w; console := console w;
          res := Some {| status_code := code; body := b |} |})
  end.

(** [res.json(body)]: the status stays at its default, 200. *)
Definition res_json (b : value) : M unit := res_status_json 200 b.

(** *** Outbound calls *)

(** [await aai.transcripts.transcribe({ audio })] *)
Definition aai_transcribe (P : providers) (audio : list Byte.byte) : M transcript :=
  log_call (CallTranscribe audio) ;; await (transcription P audio).

(** [await axios.post(url, body, config)] *)
Definition axios_post (P : providers) (req : chat_request) : M chat_response :=
  log_call (CallChat req) ;; await (completion P req).

(** *** Upload intake: multer's [upload.single("audio")] with disk storage *)

Record uploaded_file : Type := { path : string }.
Record request : Type := { file : option uploaded_file }.

Definition uploads_dest : string := "uploads/".

(** The [audio] field of the form, when present, is written under the
    destination folder with a generated [filename] and described by
    [req.file]; when absent, [req.file] stays [undefined]. *)
Definition upload_single (audio : option (list Byte.byte)) (filename : string)
  : M request :=
  match audio with
  | Some bytes =>
      writeFile (uploads_dest +:+ filename) bytes ;;
      mret {| file := Some {| path := uploads_dest +:+ filename |} |}
  | None => mret {| file := None |}
  end.

(** *** The handler of POST /api/transcribe-and-summarize *)

Definition COMPLETIONS_URL : string := "https://openrouter.ai/api/v1/chat/completions".
Definition MODEL : string := "nex-agi/deepseek-v3.1-nex-n1:free".
Definition SYSTEM_PROMPT : string :=
  "You are a helpful assistant that summarizes voice notes into key points and action items.".

Definition prompt_head : string :=
  NL +:+ "Here is a voice note transcript:" +:+ NL +:+ NL +:+ DQ.

Definition prompt_tail : string :=
  DQ +:+ NL +:+ NL
  +:+ "Return ONLY valid JSON (no backticks, no markdown) with this exact shape:" +:+ NL
  +:+ "{" +:+ NL
  +:+ "  " +:+ quoted "key_points" +:+ ": [" +:+ quoted "point 1" +:+ ", "
  +:+ quoted "point 2" +:+ ", ...]," +:+ NL
  +:+ "  " +:+ quoted "action_items" +:+ ": [" +:+ quoted "item 1" +:+ ", "
  +:+ quoted "item 2" +:+ ", ...]" +:+ NL
  +:+ "}" +:+ NL.

(** The user message: the template literal around [transcriptText]. *)
Definition user_prompt (transcriptText : string) : string :=
  prompt_head +:+ transcriptText +:+ prompt_tail.

(** String interpolation of an environment variable. *)
Definition env_to_string (v : option string) : string :=
  match v with
  | Some s => s
  | None => "undefined"
  end.

Definition completion_request (key : option string) (transcriptText : string)
  : chat_request :=
  {| url := COMPLETIONS_URL;
     model := MODEL;
     messages := [("system", SYSTEM_PROMPT); ("user", user_prompt transcriptText)];
     headers := [("Authorization", "Bearer " +:+ env_to_string key);
                 ("Content-Type", "application/json");
                 ("HTTP-Referer", "http://localhost:3000");
                 ("X-Title", "AI Voice Note Summarizer")] |}.

(** [req.file.path] *)
Definition file_path (req : request) : result string :=
  match file req with
  | Some f => Returned (path f)
  | None => Thrown (cannot_read "path")
  end.

(** [!transcript.text] *)
Definition text_missing (t : transcript) : bool :=
  match text t with
  | None => true
  | Some s => String.eqb s EmptyString
  end.

Definition text_of (t : transcript) : string :=
  match text t with
  | Some s => s
  | None => EmptyString
  end.

(** [openrouterResponse.data.choices[0].message.content] *)
Definition first_content (r : chat_response) : result content :=
  match choices r with
  | None => Thrown (cannot_read "0")
  | Some [] => Thrown (cannot_read "message")
  | Some (c :: _) =>
      match choice_message c with
      | None => Thrown (cannot_read "content")
      | Some ct => Returned ct
      end
  end.

(** ToString of the completion content, as [JSON.parse] applies it to its
    argument. *)
Definition content_to_string (c : content) : string :=
  match c with
  | ContentMissing => "undefined"
  | ContentNull => "null"
  | ContentText s => s
  end.

Definition content_value (c : content) : value :=
  match c with
  | ContentMissing => VUndefined
  | ContentNull => VNull
  | ContentText s => VString s
  end.

(** The fallback object of the [catch] around [JSON.parse]. *)
Definition fallback_summary (rawSummary : content) : value :=
  VObject [("key_points", VArray [content_value rawSummary]);
           ("action_items", VArray [])].

(** [try { parsedSummary = JSON.parse(rawSummary) } catch (e) { ... }] *)
Definition parse_or_fallback (rawSummary : content) : value :=
  match JSON.parse (content_to_string rawSummary) with
  | Some parsed => parsed
  | None => fallback_summary rawSummary
  end.

Definition success_body (transcriptText : string) (parsedSummary : value) : value :=
  VObject [("transcript", VString transcriptText); ("summary", parsedSummary)].

Definition response_data (error : js_error) : value :=
  match response error with
  | Some r => data r
  | None => VUndefined
  end.

Definition response_status (error : js_error) : value :=
  match response error with
  | Some r => VNumber (binary_normalize JSON.prec JSON.emax (status r) 0 false)
  | None => VUndefined
  end.

Definition config_url_value (error : js_error) : value :=
  match config_url error with
  | Some u => VString u
  | None => VUndefined
  end.

(** The arguments of [console.error] in the [catch] block. *)
Definition error_log_line (error : js_error) : list value :=
  [VString "BACKEND ERROR:";
   config_url_value error;
   response_status error;
   js_or (response_data error) (VString (message error))].

(** The body of the [catch] block's response: its [error] field is
    [error.response?.data || error.message || "Something went wrong"]. *)
Definition error_envelope (error : js_error) : value :=
  VObject [("error",
            js_or (js_or (response_data error) (VString (message error)))
                  (VString "Something went wrong"))].

Definition transcribe_and_summarize (P : providers) (req : request) : M unit :=
  try_catch
    (audioFilePath ← eval (file_path req);
     audioData ← readFileSync audioFilePath;
     transcript ← aai_transcribe P audioData;
     if text_missing transcript
     then throw (plain_error "Transcription is empty or failed")
     else
       let transcriptText := text_of transcript in
       openrouterResponse ←
         axios_post P (completion_request (OPENROUTER_API_KEY P) transcriptText);
       rawSummary ← eval (first_content openrouterResponse);
       let parsedSummary := parse_or_fallback rawSummary in
       res_json (success_body transcriptText parsedSummary) ;;
       unlinkSync audioFilePath)
    (fun error =>
       console_error (error_log_line error) ;;
       res_status_json 500 (error_envelope error)).

(** One request through the route: upload intake, then the handler. *)
Definition serve (P : providers) (audio : option (list Byte.byte))
    (filename : string) (files : gmap string (list Byte.byte))
  : result unit * world :=
  (req ← upload_single audio filename; transcribe_and_summarize P req) (start files).

End Backend.

(** ** The frontend: App.js *)

Module Frontend.

(** The recording: [new Blob(chunks, { type: "audio/webm" })]. *)
Record blob : Type := {
  blob_bytes : list Byte.byte;
  blob_type : string
}.

(** The component's state, one field per [useState]. *)
Record state : Type := {
  isRecording : bool;
  audioBlob : option blob;
  transcript : value;
  summary : value;
  loading : bool
}.

(** One part of a multipart form: field name, content, file name. *)
Record form_part : Type := {
  part_name : string;
  part_blob : blob;
  part_filename : string
}.

Record fetch_request : Type := {
  fetch_url : string;
  fetch_method : string;
  fetch_body : list form_part
}.

(** What [fetch] and [response.json()] give: the promise of [fetch]
    rejects, or there is a response with its [ok] flag and a body that is
    JSON ([Some]) or not ([None], so that [response.json()] rejects). *)
Inductive fetch_outcome : Type :=
  | NetworkFailure
  | Reply (ok : bool) (json : option value).

(** The error caught by the [catch] block. *)
Inductive caught : Type :=
  | FetchRejected
  | JsonRejected
  | ReadOfNullish (prop : string)
  | ServerError (reason : value).

Inductive effect : Type :=
  | Alert (msg : string)
  | ConsoleError (err : caught)
  | Fetch (req : fetch_request)
  | SetLoading (b : bool)
  | SetTranscript (v : value)
  | SetSummary (v : value).

(** [data.k] for one of the keys [error], [transcript], [summary], none of
    which is an inherited property: reading it from [undefined] or [null]
    throws, from any other non-object gives [undefined]. *)
Definition get (data : value) (k : string) : caught + value :=
  match data with
  | VUndefined | VNull => inl (ReadOfNullish k)
  | VObject fields => inr (obj_get fields k)
  | _ => inr VUndefined
  end.

Definition SUBMIT_URL : string := "http://localhost:5001/api/transcribe-and-summarize".

Definition submit_request (b : blob) : fetch_request :=
  {| fetch_url := SUBMIT_URL;
     fetch_method := "POST";
     fetch_body := [{| part_name := "audio"; part_blob := b;
                       part_filename := "note.webm" |}] |}.

(** Everything after [await fetch(...)] inside the [try] block: the
    effects performed and the error thrown, if any. *)
Definition after_fetch (o : fetch_outcome) : list effect * option caught :=
  match o with
  | NetworkFailure => ([], Some FetchRejected)
  | Reply _ None => ([], Some JsonRejected)
  | Reply ok (Some data) =>
      if negb ok then
        match get data "error" with
        | inl err => ([], Some err)
        | inr reason => ([], Some (ServerError (js_or reason (VString "Server error"))))
        end
      else
        match get data "transcript", get data "summary" with
        | inr t, inr s => ([SetTranscript t; SetSummary s], None)
        | inl err, _ => ([], Some err)
        | inr t, inl err => ([SetTranscript t], Some err)
        end
  end.

(** The effects of one click on the submit button, in order, for a
    server that answers [server req] to the request [req]. *)
Definition handleSubmit (st : state) (server : fetch_request -> fetch_outcome)
  : list effect :=
  match audioBlob st with
  | None => [Alert "Please record a voice note first."]
  | Some b =>
      let '(performed, thrown) := after_fetch (server (submit_request b)) in
      [SetLoading true; SetTranscript (VString EmptyString);
       SetSummary (VString EmptyString); Fetch (submit_request b)]
      ++ performed
      ++ match thrown with
         | Some err => [ConsoleError err; Alert "Failed to process audio."]
         | None => []
         end
      ++ [SetLoading false]
  end.

(** The state setters, applied to the state. *)
Definition apply_effect (st : state) (e : effect) : state :=
  match e with
  | SetLoading b =>
      {| isRecording := isRecording st; audioBlob := audioBlob st;
         transcript := transcript st; summary := summary st; loading := b |}
  | SetTranscript v =>
      {| isRecording := isRecording st; audioBlob := audioBlob st;
         transcript := v; summary := summary st; loading := loading st |}
  | SetSummary v =>
      {| isRecording := isRecording st; audioBlob := audioBlob st;
         transcript := transcript st; summary := v; loading := loading st |}
  | Alert _ | ConsoleError _ | Fetch _ => st
  end.

Definition apply_effects (st : state) (es : list effect) : state :=
  fold_left apply_effect es st.

(** An effect that leaves the loading flag as it is. *)
Definition keeps_loading (e : effect) : Prop :=
  forall s, loading (apply_effect s e) = loading s.

(** The submit button: [disabled={loading || !audioBlob}]. *)
Definition submit_disabled (st : state) : bool :=
  loading st || match audioBlob st with Some _ => false | None => true end.

Definition is_fetch (e : effect) : bool :=
  match e with
  | Fetch _ => true
  | _ => false
  end.

End Frontend.

(** ** What a client observes of a request *)

Import Backend.

(** What a client observes of a finished request. *)
Definition responded (o : result unit * world) (code : Z) (b : value) : Prop :=
  res (snd o) = Some {| status_code := code; body := b |}.

Definition succeeds (o : result unit * world) : Prop :=
  exists b, responded o 200 b.

Definition fails (o : result unit * world) : Prop :=
  exists code b, responded o code b /\ code <> 200%Z.

Definition is_chat_call (c : outbound) : bool :=
  match c with
  | CallChat _ => true
  | CallTranscribe _ => false
  end.

(** The SummaryResult shape: an object whose [key_points] and
    [action_items] are both arrays. *)
Definition is_array (v : value) : bool :=
  match v with
  | VArray _ => true
  | _ => false
  end.

Definition has_summary_shape (v : value) : bool :=
  match v with
  | VObject fields =>
      is_array (obj_get fields "key_points") && is_array (obj_get fields "action_items")
  | _ => false
  end.

(** [o.k] for the body of a response. *)
Definition field (b : value) (k : string) : value :=
  match b with
  | VObject fields => obj_get fields k
  | _ => VUndefined
  end.

(** The completion content is missing, [null] or the empty string. *)
Definition blank_content (c : content) : Prop :=
  c = ContentMissing \/ c = ContentNull \/ c = ContentText EmptyString.

(** The world after the [catch] block has handled [error]. *)
Definition failure_world (files : gmap string (list Byte.byte))
    (made : list outbound) (error : js_error) : world :=
  {| fs := files; calls := made; console := [error_log_line error];
     res := Some {| status_code := 500; body := error_envelope error |} |}.

Definition success_world (files : gmap string (list Byte.byte))
    (made : list outbound) (transcriptText : string) (rawSummary : content) : world :=
  {| fs := files; calls := made; console := [];
     res := Some {| status_code := 200;
                    body := success_body transcriptText (parse_or_fallback rawSummary) |} |}.

(** ** Test doubles *)

(** Providers that give the same answers whatever they are asked. *)
Definition stub (t : outcome transcript) (c : outcome chat_response) : providers :=
  {| transcription := fun _ => t;
     completion := fun _ => c;
     OPENROUTER_API_KEY := Some "test-key" |}.

Definition heard (T : string) : outcome transcript :=
  Resolved {| text := Some T |}.

Definition completes (c : content) : outcome chat_response :=
  Resolved {| choices := Some [{| choice_message := Some c |}] |}.

(** An axios error for a non-success status of the provider. *)
Definition status_error (code : Z) (msg : string) (b : value) : js_error :=
  {| message := msg;
     response := Some {| status := code; data := b |};
     config_url := Some COMPLETIONS_URL |}.

Definition clip : list Byte.byte := [Byte.x52; Byte.x49; Byte.x46; Byte.x46].

Definition NOTE : string := "Buy milk. Call Bob.".

Definition CHATTY : string := "Sure! Here's your summary: ...".

Definition WELL_FORMED : string :=
  "{" +:+ quoted "key_points" +:+ ":[" +:+ quoted "Buy milk" +:+ "],"
  +:+ quoted "action_items" +:+ ":[" +:+ quoted "Call Bob" +:+ "]}".

(** The component before anything was recorded. *)
Definition idle : Frontend.state :=
  {| Frontend.isRecording := false; Frontend.audioBlob := None;
     Frontend.transcript := VString EmptyString;
     Frontend.summary := VString EmptyString;
     Frontend.loading := false |}.

(** ** The frontend: reading the summary aloud *)

Module Speech.

(** A small non-negative integer in a template literal. *)
Definition decimal (n : nat) : string := NilZero.string_of_uint (Nat.to_uint n).

Section ToString.

(** Number::toString is the engine's; everything below holds whatever it
    is. *)
Variable number_to_string : spec_float -> string.

(** An own property named [k]. *)
Definition has_own (fields : list (string * value)) (k : string) : bool :=
  existsb (fun kv => String.eqb (fst kv) k) fields.

(** ToString, as a template literal applies it; [None] stands for the
    TypeError "Cannot convert object to primitive value".  An object is
    converted by its [toString] method: without an own property of that
    name it inherits Object.prototype.toString and reads as
    "[object Object]"; with one, whose value is never callable here, the
    conversion falls back on [valueOf], which gives the object itself, and
    throws.  An array is the join of its elements with commas, [null] and
    [undefined] elements being empty. *)
Fixpoint to_string (v : value) : option string :=
  match v with
  | VUndefined => Some "undefined"
  | VNull => Some "null"
  | VBool true => Some "true"
  | VBool false => Some "false"
  | VNumber f => Some (number_to_string f)
  | VString s => Some s
  | VArray items =>
      option_map (String.concat ",")
        ((fix elements (l : list value) : option (list string) :=
            match l with
            | [] => Some []
            | x :: rest =>
                match match x with
                      | VUndefined | VNull => Some EmptyString
                      | _ => to_string x
                      end with
                | Some s =>
                    match elements rest with
                    | Some ss => Some (s :: ss)
                    | None => None
                    end
                | None => None
                end
            end) items)
  | VObject fields =>
      if has_own fields "toString" then None else Some "[object Object]"
  end.

(** [items.map((p, i) => `${label} ${i + 1}: ${p}`)], from index [i] on:
    [None] when the template literal throws for an item. *)
Fixpoint numbered_from (label : string) (i : nat) (items : list value)
  : option (list string) :=
  match items with
  | [] => Some []
  | p :: rest =>
      match to_string p with
      | Some s =>
          match numbered_from label (S i) rest with
          | Some ss => Some ((label +:+ " " +:+ decimal (S i) +:+ ": " +:+ s) :: ss)
          | None => None
          end
      | None => None
      end
  end.

Definition numbered (label : string) (items : list value) : option (list string) :=
  numbered_from label 0 items.

(** [(summary.k || []).map(...).join(". ")]: [None] stands for a
    TypeError, that of calling [map] on a truthy value that is not an
    array or that of an item without a string form. *)
Definition list_text (label : string) (summary : value) (k : string) : option string :=
  match js_or (field summary k) (VArray []) with
  | VArray items => option_map (String.concat ". ") (numbered label items)
  | _ => None
  end.

(** [text && `${intro} ${text}.`] *)
Definition sentence (intro text : string) : string :=
  if String.eqb text EmptyString then EmptyString
  else intro +:+ " " +:+ text +:+ ".".

Definition non_empty (s : string) : bool := negb (String.eqb s EmptyString).

(** What a click does: nothing, an utterance handed to the browser's
    speech synthesis (taken to be available), or an uncaught TypeError. *)
Inductive speech : Type :=
  | Silent
  | Speaks (text : string)
  | TypeError.

(** One click on "Play Summary". *)
Definition speakSummary (summary : value) : speech :=
  if negb (truthy summary) then Silent
  else
    match list_text "Key point" summary "key_points" with
    | None => TypeError
    | Some keyPointsText =>
        match list_text "Action item" summary "action_items" with
        | None => TypeError
        | Some actionItemsText =>
            let fullText :=
              String.concat " "
                (List.filter non_empty
                   [sentence "Here are the key points." keyPointsText;
                    sentence "Here are the action items." actionItemsText]) in
            if String.eqb fullText EmptyString then Silent else Speaks fullText
        end
    end.

(** The items that [speakSummary] reads from a field: those of an array,
    none for a falsy value, and no list at all for any other value. *)
Definition items_of (v : value) : option (list value) :=
  match v with
  | VArray items => Some items
  | _ => if truthy v then None else Some []
  end.

End ToString.

End Speech.

(** ** The frontend: recording *)

Module Recording.

(** The component with its two refs.  [recorder] is [None] while
    [mediaRecorderRef.current] is [null], [Some true] for a MediaRecorder
    that is recording and [Some false] for one that has been stopped;
    [chunks] is [chunksRef.current]. *)
Record component : Type := {
  ui : Frontend.state;
  recorder : option bool;
  chunks : list (list Byte.byte)
}.

Definition MICROPHONE_ALERT : string :=
  "Could not access microphone. Please check permissions.".

Definition with_ui (c : component) (st : Frontend.state) : component :=
  {| ui := st; recorder := recorder c; chunks := chunks c |}.

(** [setTranscript(""); setSummary(""); setAudioBlob(null)] *)
Definition cleared (st : Frontend.state) : Frontend.state :=
  {| Frontend.isRecording := Frontend.isRecording st;
     Frontend.audioBlob := None;
     Frontend.transcript := VString EmptyString;
     Frontend.summary := VString EmptyString;
     Frontend.loading := Frontend.loading st |}.

Definition set_recording (st : Frontend.state) (b : bool) : Frontend.state :=
  {| Frontend.isRecording := b;
     Frontend.audioBlob := Frontend.audioBlob st;
     Frontend.transcript := Frontend.transcript st;
     Frontend.summary := Frontend.summary st;
     Frontend.loading := Frontend.loading st |}.

Definition set_blob (st : Frontend.state) (b : Frontend.blob) : Frontend.state :=
  {| Frontend.isRecording := Frontend.isRecording st;
     Frontend.audioBlob := Some b;
     Frontend.transcript := Frontend.transcript st;
     Frontend.summary := Frontend.summary st;
     Frontend.loading := Frontend.loading st |}.

(** One click on "Start Recording", taken together with the answer to
    [getUserMedia]: [granted] tells whether the [try] block runs to its
    end.  The result is the component and the alerts shown. *)
Definition startRecording (granted : bool) (c : component) : component * list string :=
  if granted then
    ({| ui := set_recording (cleared (ui c)) true;
        recorder := Some true;
        chunks := [] |}, [])
  else
    (with_ui c (cleared (ui c)), [MICROPHONE_ALERT]).

(** [mediaRecorder.ondataavailable]: [chunksRef.current.push(event.data)] *)
Definition ondataavailable (data : list Byte.byte) (c : component) : component :=
  {| ui := ui c; recorder := recorder c; chunks := chunks c ++ [data] |}.

(** [mediaRecorder.onstop]: the blob of all chunks, of type audio/webm. *)
Definition onstop (c : component) : component :=
  with_ui c (set_blob (ui c)
               {| Frontend.blob_bytes := concat (chunks c);
                  Frontend.blob_type := "audio/webm" |}).

(** One click on "Stop Recording": nothing without a recorder; [None]
    stands for the InvalidStateError of stopping a recorder that is not
    recording. *)
Definition stopRecording (c : component) : option component :=
  match recorder c with
  | None => Some c
  | Some true =>
      Some {| ui := set_recording (ui c) false;
              recorder := Some false;
              chunks := chunks c |}
  | Some false => None
  end.

(** What the browser does after [stop()]: it hands over the data gathered
    since the last hand-over and then fires the stop event. *)
Definition settle (last : list Byte.byte) (c : component) : component :=
  onstop (ondataavailable last c).

(** The events of one order in which the component can be used: each
    click is followed at once by what it waits for (the answer of
    [getUserMedia], the events of the stopped recorder, the reply to the
    request).  Every run of these events is a run of the component; runs
    in which a click falls while an earlier one is still waiting are not
    described. *)
Inductive action : Type :=
  | ClickStart (granted : bool)
  | HandOver (data : list Byte.byte)
  | ClickStop (last : list Byte.byte)
  | ClickSubmit (server : Frontend.fetch_request -> Frontend.fetch_outcome).

(** The start button is rendered while not recording, the stop button
    while recording; the recorder hands data over only while it records;
    the submit button must not be disabled. *)
Definition step (c : component) (a : action) : option component :=
  match a with
  | ClickStart granted =>
      if Frontend.isRecording (ui c) then None
      else Some (fst (startRecording granted c))
  | HandOver data =>
      match recorder c with
      | Some true => Some (ondataavailable data c)
      | _ => None
      end
  | ClickStop last =>
      if Frontend.isRecording (ui c)
      then option_map (settle last) (stopRecording c)
      else None
  | ClickSubmit server =>
      if Frontend.submit_disabled (ui c) then None
      else Some (with_ui c (Frontend.apply_effects (ui c)
                              (Frontend.handleSubmit (ui c) server)))
  end.

Fixpoint run (c : component) (actions : list action) : option component :=
  match actions with
  | [] => Some c
  | a :: rest =>
      match step c a with
      | Some c' => run c' rest
      | None => None
      end
  end.

(** The component as it is mounted. *)
Definition mounted : component :=
  {| ui := idle; recorder := None; chunks := [] |}.

End Recording.

(** ** Frontend and backend together *)

Module Stack.

(** What [JSON.stringify] in [res.json] followed by [JSON.parse] in
    [response.json()] makes of a value: [undefined] elements of arrays
    become [null], properties whose value is [undefined] are left out,
    [NaN] and the infinities become [null], and [-0] becomes [0]. *)
Fixpoint wire (v : value) : value :=
  match v with
  | VNumber (S754_zero _) => VNumber (S754_zero false)
  | VNumber (S754_finite _ _ _) => v
  | VNumber _ => VNull
  | VArray items =>
      VArray (map (fun x => match x with
                            | VUndefined => VNull
                            | _ => wire x
                            end) items)
  | VObject fields =>
      VObject (flat_map (fun kv => match kv with
                                   | (_, VUndefined) => []
                                   | (k, x) => [(k, wire x)]
                                   end) fields)
  | _ => v
  end.

Definition ROUTE_PATH : string := "/api/transcribe-and-summarize".

(** [process.env.PORT || 5001] *)
Definition port (PORT : option string) : string :=
  match PORT with
  | Some s => if String.eqb s EmptyString then "5001" else s
  | None => "5001"
  end.

Definition server_origin (PORT : option string) : string :=
  "http://localhost:" +:+ port PORT.

(** The [origin] option of the cors middleware. *)
Definition ALLOWED_ORIGINS : list string :=
  ["http://localhost:3000"; "http://127.0.0.1:3000"].

(** multer's [single("audio")] on the file parts of a form: no part, the
    one part named [audio], or [None] for the "Unexpected field" error on
    any other form. *)
Definition uploaded (parts : list Frontend.form_part) : option (option (list Byte.byte)) :=
  match parts with
  | [] => Some None
  | [p] =>
      if String.eqb (Frontend.part_name p) "audio"
      then Some (Some (Frontend.blob_bytes (Frontend.part_blob p)))
      else None
  | _ => None
  end.

(** The response as [fetch] and [response.json()] give it to the page. *)
Definition reply_of (w : world) : Frontend.fetch_outcome :=
  match res w with
  | Some r =>
      Frontend.Reply ((200 <=? status_code r)%Z && (status_code r <? 300)%Z)
        (Some (wire (body r)))
  | None => Frontend.NetworkFailure
  end.

(** The Express app: the one route, and an answer that is not JSON for
    anything else and for forms that multer refuses. *)
Definition app (P : providers) (filename : string)
    (files : gmap string (list Byte.byte))
    (method path : string) (parts : list Frontend.form_part) : Frontend.fetch_outcome :=
  if String.eqb method "POST" && String.eqb path ROUTE_PATH then
    match uploaded parts with
    | Some audio => reply_of (snd (serve P audio filename files))
    | None => Frontend.Reply false None
    end
  else Frontend.Reply false None.

Fixpoint strip_prefix (p s : string) : option string :=
  match p, s with
  | EmptyString, _ => Some s
  | String a p', String b s' => if Ascii.eqb a b then strip_prefix p' s' else None
  | String _ _, EmptyString => None
  end.

(** [fetch] from a page of origin [page_origin]: the request reaches the
    app when its URL is on the app's origin, and the page gets the
    response when the cors middleware allows its origin. *)
Definition browser_fetch (page_origin : string) (PORT : option string)
    (P : providers) (filename : string) (files : gmap string (list Byte.byte))
    (req : Frontend.fetch_request) : Frontend.fetch_outcome :=
  match strip_prefix (server_origin PORT) (Frontend.fetch_url req) with
  | Some path =>
      if existsb (String.eqb page_origin) (server_origin PORT :: ALLOWED_ORIGINS)
      then app P filename files (Frontend.fetch_method req) path (Frontend.fetch_body req)
      else Frontend.NetworkFailure
  | None => Frontend.NetworkFailure
  end.

End Stack.

(** A recording of the clip. *)
Definition recorded : Frontend.blob :=
  {| Frontend.blob_bytes := clip; Frontend.blob_type := "audio/webm" |}.

Definition ready : Frontend.state :=
  {| Frontend.isRecording := false; Frontend.audioBlob := Some recorded;
     Frontend.transcript := VString EmptyString;
     Frontend.summary := VString EmptyString;
     Frontend.loading := false |}.

(** A result that the page can render: the transcript is a string, and
    each list of the summary is absent, [null] or an array of strings. *)
Definition is_text (v : value) : bool :=
  match v with
  | VString _ => true
  | _ => false
  end.

Definition text_list (v : value) : bool :=
  match v with
  | VUndefined | VNull => true
  | VArray items => forallb is_text items
  | _ => false
  end.

Definition renderable_result (t s : value) : bool :=
  is_text t
  && text_list (field s "key_points")
  && text_list (field s "action_items").

(** The answers that the submit cannot process: [fetch] rejects, the
    body is not JSON, the status is not ok, or the body is [null]. *)
Definition unusable (o : Frontend.fetch_outcome) : Prop :=
  o = Frontend.NetworkFailure
  \/ (exists ok, o = Frontend.Reply ok None)
  \/ (exists json, o = Frontend.Reply false json)
  \/ o = Frontend.Reply true (Some VNull).

(** * Properties *)

(** ** JSON text *)

Lemma string_append_assoc (s1 s2 s3 : string) :
  (s1 +:+ s2) +:+ s3 = s1 +:+ (s2 +:+ s3).
Proof.
  induction s1 as [|c s1 IH]; [reflexivity|].
  change (String c ((s1 +:+ s2) +:+ s3) = String c (s1 +:+ (s2 +:+ s3))).
  now rewrite IH.
Qed.

Section Lexing.
Import JSON.

(** The lexer, inside a string literal, reads the escape of a character
    back as that character's item. *)
Lemma lex_quote_char (c : ascii) (acc : list sitem) (toks : list token) (rest : string) :
  lex (LString acc) toks (quote_char c +:+ rest)
  = lex (LString (item_of c :: acc)) toks rest.
Proof.
  destruct c as [[] [] [] [] [] [] [] []]; reflexivity.
Qed.

Lemma lex_quote_chars (s : string) (acc : list sitem) (toks : list token) (rest : string) :
  lex (LString acc) toks (quote_chars s +:+ String DQUOTE rest)
  = lex LStart
      (TString (string_of_items (rev acc ++ map item_of (list_ascii_of_string s))) :: toks)
      rest.
Proof.
  revert acc. induction s as [|c s IH]; intros acc.
  - cbn [quote_chars list_ascii_of_string map]. rewrite app_nil_r.
    change (EmptyString +:+ String DQUOTE rest) with (String DQUOTE rest).
    reflexivity.
  - cbn [quote_chars list_ascii_of_string map].
    rewrite string_append_assoc, lex_quote_char, IH.
    cbn [rev]. now rewrite <- app_assoc.
Qed.

Lemma encode_items_of (l : list ascii) :
  encode_items (map item_of l) = l.
Proof.
  induction l as [|c l IH]; [reflexivity|].
  cbn [map]. destruct (item_of c) as [c'|cu] eqn:Hc.
  - cbn. rewrite IH. f_equal.
    unfold item_of in Hc. now destruct (_ && _)%bool; inversion Hc.
  - assert (Hcu : utf8 cu = [c] /\ is_high_surrogate cu = false).
    { revert Hc. destruct c as [[] [] [] [] [] [] [] []]; intros Hc;
        vm_compute in Hc; try discriminate Hc; injection Hc as <-;
        split; reflexivity. }
    destruct Hcu as [Hu Hs]. cbn [encode_items].
    destruct (map item_of l) as [|[c'|lo] items] eqn:Hitems.
    + rewrite Hu. cbn. now rewrite <- IH.
    + rewrite Hu. rewrite IH. reflexivity.
    + rewrite Hs. cbn [andb]. rewrite Hu, IH. reflexivity.
Qed.

(** A quoted string is read back as one string token. *)
Lemma lex_quote (s : string) (toks : list token) (rest : string) :
  lex LStart toks (quote s +:+ rest) = lex LStart (TString s :: toks) rest.
Proof.
  unfold quote.
  change (lex (LString []) toks ((quote_chars s +:+ String DQUOTE EmptyString) +:+ rest)
          = lex LStart (TString s :: toks) rest).
  rewrite string_append_assoc.
  change (String DQUOTE EmptyString +:+ rest) with (String DQUOTE rest).
  rewrite lex_quote_chars. cbn [rev app].
  unfold string_of_items. now rewrite encode_items_of, string_of_list_ascii_of_string.
Qed.

End Lexing.

Section Parsing.
Import JSON.

Lemma lex_stringify_more (l : list string) (toks : list token) (rest : string) :
  lex LStart toks (stringify_more l +:+ rest)
  = lex LStart (rev (more_tokens l) ++ toks) rest.
Proof.
  revert toks. induction l as [|s l IH]; intros toks; [reflexivity|].
  cbn [stringify_more more_tokens flat_map].
  change (lex LStart (TComma :: toks) ((quote s +:+ stringify_more l) +:+ rest)
          = lex LStart (rev ([TComma; TString s] ++ more_tokens l) ++ toks) rest).
  rewrite string_append_assoc, lex_quote, IH.
  rewrite rev_app_distr. cbn [rev app]. now rewrite <- !app_assoc.
Qed.

Lemma lex_stringify_strings (l : list string) (toks : list token) (rest : string) :
  lex LStart toks (stringify_strings l +:+ rest)
  = lex LStart (rev (strings_tokens l) ++ toks) rest.
Proof.
  unfold stringify_strings, strings_tokens. destruct l as [|s l].
  - reflexivity.
  - change (lex LStart (TLBracket :: toks)
              (((quote s +:+ stringify_more l) +:+ "]") +:+ rest)
            = lex LStart (rev (TLBracket :: (TString s :: more_tokens l) ++ [TRBracket]) ++ toks)
                rest).
    rewrite !string_append_assoc, lex_quote, lex_stringify_more.
    change ("]" +:+ rest) with (String "]" rest).
    cbn [lex]. cbn [rev]. rewrite rev_app_distr. cbn [rev app].
    now rewrite <- !app_assoc.
Qed.

(** The parser reads the tokens of the elements after the first. *)
Lemma parse_more_tokens (l : list string) (acc : list value) (st : list frame)
    (ts : list token) :
  parse_tokens (PArrayNext acc st) (more_tokens l ++ TRBracket :: ts)
  = parse_tokens (complete (VArray (rev acc ++ map VString l)) st) ts.
Proof.
  revert acc. induction l as [|s l IH]; intros acc.
  - cbn. now rewrite app_nil_r.
  - cbn [more_tokens flat_map app parse_tokens parse_step parse_value_start complete].
    fold (more_tokens l). rewrite IH. cbn [rev map]. now rewrite <- app_assoc.
Qed.

Lemma parse_strings_tokens (l : list string) (st : list frame) (ts : list token) :
  parse_tokens (PValue st) (strings_tokens l ++ ts)
  = parse_tokens (complete (VArray (map VString l)) st) ts.
Proof.
  unfold strings_tokens. destruct l as [|s l]; [reflexivity|].
  cbn [app parse_tokens parse_step parse_value_start complete].
  rewrite <- app_assoc. cbn [app]. now rewrite parse_more_tokens.
Qed.

Lemma lex_colon (toks : list token) (rest : string) :
  lex LStart toks (String ":" rest) = lex LStart (TColon :: toks) rest.
Proof. reflexivity. Qed.

Lemma lex_comma (toks : list token) (rest : string) :
  lex LStart toks (String "," rest) = lex LStart (TComma :: toks) rest.
Proof. reflexivity. Qed.

(** Parsing the JSON text of a summary gives the summary back, with the
    elements of both arrays in order. *)
Lemma parse_stringify_summary (key_points action_items : list string) :
  parse (stringify_summary key_points action_items)
  = Some (VObject [("key_points", VArray (map VString key_points));
                   ("action_items", VArray (map VString action_items))]).
Proof.
  unfold parse, stringify_summary.
  change (match lex LStart [TLBrace]
                  (quote "key_points" +:+
                     String ":" (stringify_strings key_points +:+
                       String "," (quote "action_items" +:+
                         String ":" (stringify_strings action_items +:+ "}"))))
          with
          | Some ts => parse_tokens (PValue []) ts
          | None => None
          end = Some (VObject [("key_points", VArray (map VString key_points));
                               ("action_items", VArray (map VString action_items))])).
  rewrite lex_quote, lex_colon, lex_stringify_strings, lex_comma, lex_quote,
    lex_colon, lex_stringify_strings.
  change (lex LStart ?toks "}") with (Some (rev (TRBrace :: toks))).
  repeat (progress (cbn [rev app]; rewrite ?rev_app_distr, ?rev_involutive, <- ?app_assoc)).
  cbn [app parse_tokens parse_step parse_value_start].
  rewrite parse_strings_tokens.
  cbn [app complete obj_set parse_tokens parse_step parse_value_start].
  rewrite parse_strings_tokens. reflexivity.
Qed.

End Parsing.

(** What [JSON.parse] makes of a few texts. *)
Example parse_null : JSON.parse "null" = Some VNull.
Proof. reflexivity. Qed.

Example parse_undefined : JSON.parse "undefined" = None.
Proof. reflexivity. Qed.

Example parse_empty : JSON.parse EmptyString = None.
Proof. reflexivity. Qed.

Example parse_chatty : JSON.parse CHATTY = None.
Proof. vm_compute. reflexivity. Qed.

Example parse_well_formed :
  JSON.parse WELL_FORMED
  = Some (VObject [("key_points", VArray [VString "Buy milk"]);
                   ("action_items", VArray [VString "Call Bob"])]).
Proof. vm_compute. reflexivity. Qed.

Example parse_trailing_comma : JSON.parse "[1,]" = None.
Proof. vm_compute. reflexivity. Qed.

Example parse_tenth :
  JSON.parse "0.1" = Some (VNumber (S754_finite false 7205759403792794 (-56))).
Proof. vm_compute. reflexivity. Qed.

Example parse_escapes :
  JSON.parse (quoted "café 😀\n")
  = Some (VString ("café 😀" +:+ NL)).
Proof. vm_compute. reflexivity. Qed.

Example parse_repeated_key :
  JSON.parse ("{" +:+ quoted "a" +:+ ":1," +:+ quoted "a" +:+ ":null}")
  = Some (VObject [("a", VNull)]).
Proof. vm_compute. reflexivity. Qed.

(** ** Properties of the backend *)

(** Runs the route as far as the answers of the providers are known. *)
Ltac run_handler :=
  unfold serve, transcribe_and_summarize, try_catch, upload_single, eval,
    file_path, aai_transcribe, axios_post, readFileSync, unlinkSync, writeFile,
    log_call, console_error, res_json, res_status_json, await, throw,
    failure_world, success_world, mbind, M_bind, mret, M_ret;
  repeat (progress (cbn [fs calls console res start file path fst snd];
                    rewrite ?lookup_insert_eq)).

Lemma text_missing_false t :
  text_missing t = false <-> exists T, text t = Some T /\ T <> EmptyString.
Proof.
  unfold text_missing. destruct (text t) as [s|].
  - destruct (String.eqb_spec s EmptyString) as [->|Hne]; split.
    + discriminate.
    + intros (T & [= <-] & Hne). congruence.
    + eauto.
    + reflexivity.
  - split; [discriminate | intros (T & [=] & _)].
Qed.

Lemma text_missing_true t :
  text_missing t = true <-> text t = None \/ text t = Some EmptyString.
Proof.
  unfold text_missing. destruct (text t) as [s|].
  - destruct (String.eqb_spec s EmptyString) as [->|Hne]; split; auto.
    + discriminate.
    + intros [[=]|[=]]. congruence.
  - split; auto.
Qed.

Lemma text_of_Some t T : text t = Some T -> text_of t = T.
Proof. unfold text_of. now intros ->. Qed.

Section Runs.

Variable P : providers.
Variable filename : string.
Variable files : gmap string (list Byte.byte).

Let key : option string := OPENROUTER_API_KEY P.

(** *** The exits of the handler, one lemma each *)

Lemma serve_without_audio :
  serve P None filename files
  = (Returned tt, failure_world files [] (cannot_read "path")).
Proof. reflexivity. Qed.

Section Uploaded.

Variable bytes : list Byte.byte.

Let staged_path : string := uploads_dest +:+ filename.
Let staged : gmap string (list Byte.byte) := <[staged_path := bytes]> files.

Lemma serve_transcribe_rejected e :
  transcription P bytes = Rejected e ->
  serve P (Some bytes) filename files
  = (Returned tt, failure_world staged [CallTranscribe bytes] e).
Proof. intros Ht. run_handler. rewrite Ht. reflexivity. Qed.

Lemma serve_transcript_missing t :
  transcription P bytes = Resolved t ->
  text_missing t = true ->
  serve P (Some bytes) filename files
  = (Returned tt,
     failure_world staged [CallTranscribe bytes]
       (plain_error "Transcription is empty or failed")).
Proof. intros Ht Hm. run_handler. rewrite Ht. cbn. rewrite Hm. reflexivity. Qed.

Lemma serve_chat_rejected t e :
  transcription P bytes = Resolved t ->
  text_missing t = false ->
  completion P (completion_request key (text_of t)) = Rejected e ->
  serve P (Some bytes) filename files
  = (Returned tt,
     failure_world staged
       [CallTranscribe bytes; CallChat (completion_request key (text_of t))] e).
Proof.
  intros Ht Hm Hc. run_handler. rewrite Ht. cbn. rewrite Hm. cbn.
  fold key. rewrite Hc. reflexivity.
Qed.

Lemma serve_content_unreadable t r e :
  transcription P bytes = Resolved t ->
  text_missing t = false ->
  completion P (completion_request key (text_of t)) = Resolved r ->
  first_content r = Thrown e ->
  serve P (Some bytes) filename files
  = (Returned tt,
     failure_world staged
       [CallTranscribe bytes; CallChat (completion_request key (text_of t))] e).
Proof.
  intros Ht Hm Hc Hf. run_handler. rewrite Ht. cbn. rewrite Hm. cbn.
  fold key. rewrite Hc, Hf. reflexivity.
Qed.

Lemma serve_summarized t r raw :
  transcription P bytes = Resolved t ->
  text_missing t = false ->
  completion P (completion_request key (text_of t)) = Resolved r ->
  first_content r = Returned raw ->
  serve P (Some bytes) filename files
  = (Returned tt,
     success_world (delete staged_path staged)
       [CallTranscribe bytes; CallChat (completion_request key (text_of t))]
       (text_of t) raw).
Proof.
  intros Ht Hm Hc Hf. run_handler. rewrite Ht. cbn. rewrite Hm. cbn.
  fold key. rewrite Hc, Hf. cbn. fold staged_path.
  rewrite lookup_insert_eq. reflexivity.
Qed.

(** Every run with an upload leaves by one of the exits above. *)
Lemma serve_uploaded_cases :
  (exists made e,
      serve P (Some bytes) filename files
      = (Returned tt, failure_world staged made e))
  \/ (exists t r raw,
         transcription P bytes = Resolved t
         /\ text_missing t = false
         /\ completion P (completion_request key (text_of t)) = Resolved r
         /\ first_content r = Returned raw
         /\ serve P (Some bytes) filename files
            = (Returned tt,
               success_world (delete staged_path staged)
                 [CallTranscribe bytes; CallChat (completion_request key (text_of t))]
                 (text_of t) raw)).
Proof.
  destruct (transcription P bytes) as [t|e] eqn:Ht.
  2:{ left. eexists _, _. exact (serve_transcribe_rejected e Ht). }
  destruct (text_missing t) eqn:Hm.
  { left. eexists _, _. exact (serve_transcript_missing t Ht Hm). }
  destruct (completion P (completion_request key (text_of t))) as [r|e] eqn:Hc.
  2:{ left. eexists _, _. exact (serve_chat_rejected t e Ht Hm Hc). }
  destruct (first_content r) as [raw|e] eqn:Hf.
  - right. exists t, r, raw. repeat split; try assumption.
    exact (serve_summarized t r raw Ht Hm Hc Hf).
  - left. eexists _, _. exact (serve_content_unreadable t r e Ht Hm Hc Hf).
Qed.

End Uploaded.
End Runs.

(** *** Parse or fallback *)

(** C1. A completion text that is not valid JSON does not fail the
    request: the response is a success whose summary is the object with
    the raw text as the only key point and no action items. *)
Theorem C1_invalid_json_degrades_to_fallback
    (P : providers) (bytes : list Byte.byte) (filename : string)
    (files : gmap string (list Byte.byte))
    (t : transcript) (T : string) (r : chat_response) (raw : string) :
  transcription P bytes = Resolved t ->
  text t = Some T ->
  T <> EmptyString ->
  completion P (completion_request (OPENROUTER_API_KEY P) T) = Resolved r ->
  first_content r = Returned (ContentText raw) ->
  JSON.parse raw = None ->
  fst (serve P (Some bytes) filename files) = Returned tt
  /\ responded (serve P (Some bytes) filename files) 200
       (VObject [("transcript", VString T);
                 ("summary", VObject [("key_points", VArray [VString raw]);
                                      ("action_items", VArray [])])]).
Proof.
  intros Ht HT Hne Hc Hf Hp.
  assert (Hm : text_missing t = false) by (apply text_missing_false; eauto).
  rewrite <- (text_of_Some t T HT) in Hc |- *.
  rewrite (serve_summarized P filename files bytes t r _ Ht Hm Hc Hf).
  split; [reflexivity|].
  unfold responded, success_world, parse_or_fallback. cbn. now rewrite Hp.
Qed.

Lemma C1_witness :
  responded (serve (stub (heard NOTE) (completes (ContentText CHATTY)))
               (Some clip) "a1b2" ∅) 200
    (VObject [("transcript", VString NOTE);
              ("summary", VObject [("key_points", VArray [VString CHATTY]);
                                   ("action_items", VArray [])])]).
Proof.
  apply (C1_invalid_json_degrades_to_fallback
           (stub (heard NOTE) (completes (ContentText CHATTY)))
           clip "a1b2" ∅ {| text := Some NOTE |} NOTE
           {| choices := Some [{| choice_message := Some (ContentText CHATTY) |}] |}
           CHATTY);
    [reflexivity | reflexivity | discriminate | reflexivity | reflexivity
    | vm_compute; reflexivity].
Defined.

(** C2. A completion text that is valid JSON is passed through: the
    summary of the response is the parsed value itself, with no further
    transformation or validation. *)
Theorem C2_valid_json_passes_through
    (P : providers) (bytes : list Byte.byte) (filename : string)
    (files : gmap string (list Byte.byte))
    (t : transcript) (T : string) (r : chat_response) (raw : string)
    (parsed : value) :
  transcription P bytes = Resolved t ->
  text t = Some T ->
  T <> EmptyString ->
  completion P (completion_request (OPENROUTER_API_KEY P) T) = Resolved r ->
  first_content r = Returned (ContentText raw) ->
  JSON.parse raw = Some parsed ->
  fst (serve P (Some bytes) filename files) = Returned tt
  /\ responded (serve P (Some bytes) filename files) 200
       (VObject [("transcript", VString T); ("summary", parsed)]).
Proof.
  intros Ht HT Hne Hc Hf Hp.
  assert (Hm : text_missing t = false) by (apply text_missing_false; eauto).
  rewrite <- (text_of_Some t T HT) in Hc |- *.
  rewrite (serve_summarized P filename files bytes t r _ Ht Hm Hc Hf).
  split; [reflexivity|].
  unfold responded, success_world, parse_or_fallback. cbn. now rewrite Hp.
Qed.

Lemma C2_witness :
  responded (serve (stub (heard NOTE) (completes (ContentText WELL_FORMED)))
               (Some clip) "a1b2" ∅) 200
    (VObject [("transcript", VString NOTE);
              ("summary", VObject [("key_points", VArray [VString "Buy milk"]);
                                   ("action_items", VArray [VString "Call Bob"])])]).
Proof.
  apply (C2_valid_json_passes_through
           (stub (heard NOTE) (completes (ContentText WELL_FORMED)))
           clip "a1b2" ∅ {| text := Some NOTE |} NOTE
           {| choices := Some [{| choice_message := Some (ContentText WELL_FORMED) |}] |}
           WELL_FORMED);
    [reflexivity | reflexivity | discriminate | reflexivity | reflexivity
    | vm_compute; reflexivity].
Defined.

(** X9. A summary of strings, written as JSON text by the model, reaches
    the caller as that summary, with the elements of both arrays in
    order. *)
Lemma summary_of_strings_passes_through
    (P : providers) (bytes : list Byte.byte) (filename : string)
    (files : gmap string (list Byte.byte))
    (t : transcript) (r : chat_response) (key_points action_items : list string) :
  transcription P bytes = Resolved t ->
  text_missing t = false ->
  completion P (completion_request (OPENROUTER_API_KEY P) (text_of t)) = Resolved r ->
  first_content r
  = Returned (ContentText (JSON.stringify_summary key_points action_items)) ->
  responded (serve P (Some bytes) filename files) 200
    (VObject [("transcript", VString (text_of t));
              ("summary",
               VObject [("key_points", VArray (map VString key_points));
                        ("action_items", VArray (map VString action_items))])]).
Proof.
  intros Ht Hm Hc Hf.
  rewrite (serve_summarized P filename files bytes t r _ Ht Hm Hc Hf).
  unfold responded, success_world, parse_or_fallback, content_to_string. cbn [snd res].
  now rewrite parse_stringify_summary.
Qed.

Lemma fallback_has_summary_shape (raw : content) :
  has_summary_shape (fallback_summary raw) = true.
Proof. reflexivity. Qed.

(** Every request is answered, by a success or by a failure, and the
    handler itself does not throw. *)
Lemma serve_always_responds
    (P : providers) (audio : option (list Byte.byte)) (filename : string)
    (files : gmap string (list Byte.byte)) :
  fst (serve P audio filename files) = Returned tt
  /\ (succeeds (serve P audio filename files) \/ fails (serve P audio filename files)).
Proof.
  destruct audio as [bytes|].
  - destruct (serve_uploaded_cases P filename files bytes)
      as [(made & e & ->) | (t & r & raw & _ & _ & _ & _ & ->)].
    + split; [reflexivity|]. right. eexists _, _. split; [reflexivity | discriminate].
    + split; [reflexivity|]. left. eexists. reflexivity.
  - rewrite serve_without_audio. split; [reflexivity|].
    right. eexists _, _. split; [reflexivity | discriminate].
Qed.

(** *** Blank completion content *)

(** C3, as the specification states it, at one run: the provider answers
    with the empty string as completion content, and the request does
    not fail. *)
Lemma C3_counterexample :
  first_content {| choices := Some [{| choice_message := Some (ContentText EmptyString) |}] |}
  = Returned (ContentText EmptyString)
  /\ blank_content (ContentText EmptyString)
  /\ ~ fails (serve (stub (heard NOTE) (completes (ContentText EmptyString)))
               (Some clip) "a1b2" ∅).
Proof.
  split; [reflexivity|]. split; [right; right; reflexivity|].
  intros (code & b & Hr & Hcode). apply Hcode.
  unfold responded in Hr. cbn in Hr. now injection Hr as <- _.
Qed.

(** A reply without a first choice, or whose first choice has no message,
    cannot be read: the request fails with status 500 and the message of
    the TypeError. *)
Lemma unreadable_reply_fails
    (P : providers) (bytes : list Byte.byte) (filename : string)
    (files : gmap string (list Byte.byte))
    (t : transcript) (T : string) (r : chat_response) (e : js_error) :
  transcription P bytes = Resolved t ->
  text t = Some T ->
  T <> EmptyString ->
  completion P (completion_request (OPENROUTER_API_KEY P) T) = Resolved r ->
  first_content r = Thrown e ->
  fails (serve P (Some bytes) filename files)
  /\ responded (serve P (Some bytes) filename files) 500
       (VObject [("error", VString (message e))]).
Proof.
  intros Ht HT Hne Hc Hf.
  assert (Hm : text_missing t = false) by (apply text_missing_false; eauto).
  rewrite <- (text_of_Some t T HT) in Hc.
  rewrite (serve_content_unreadable P filename files bytes t r e Ht Hm Hc Hf).
  assert (He : error_envelope e = VObject [("error", VString (message e))]).
  { unfold first_content in Hf.
    destruct (choices r) as [[|c cs]|]; [| destruct (choice_message c) |];
      try discriminate; injection Hf as <-; reflexivity. }
  unfold fails, responded, failure_world. cbn. rewrite He.
  split; [|reflexivity]. eexists _, _. split; [reflexivity | discriminate].
Qed.

(** C3, amended. A reply whose first choice has blank content does not
    fail the request: it is answered with status 200.  Empty or missing
    content is not valid JSON and gives the fallback summary around it;
    [null] content reads as the JSON text [null] and gives the summary
    [null]. *)
Theorem C3_blank_content_is_not_a_failure
    (P : providers) (bytes : list Byte.byte) (filename : string)
    (files : gmap string (list Byte.byte))
    (t : transcript) (T : string) (r : chat_response) (raw : content) :
  transcription P bytes = Resolved t ->
  text t = Some T ->
  T <> EmptyString ->
  completion P (completion_request (OPENROUTER_API_KEY P) T) = Resolved r ->
  first_content r = Returned raw ->
  blank_content raw ->
  ~ fails (serve P (Some bytes) filename files)
  /\ responded (serve P (Some bytes) filename files) 200
       (VObject [("transcript", VString T);
                 ("summary",
                  match raw with
                  | ContentNull => VNull
                  | _ => VObject [("key_points", VArray [content_value raw]);
                                  ("action_items", VArray [])]
                  end)]).
Proof.
  intros Ht HT Hne Hc Hf Hblank.
  assert (Hm : text_missing t = false) by (apply text_missing_false; eauto).
  rewrite <- (text_of_Some t T HT) in Hc |- *.
  rewrite (serve_summarized P filename files bytes t r raw Ht Hm Hc Hf).
  assert (Hbody : parse_or_fallback raw
                  = match raw with
                    | ContentNull => VNull
                    | _ => VObject [("key_points", VArray [content_value raw]);
                                    ("action_items", VArray [])]
                    end)
    by (destruct Hblank as [-> | [-> | ->]]; reflexivity).
  unfold fails, responded, success_world, success_body. cbn.
  rewrite Hbody. split; [|reflexivity].
  intros (code & b & [= <- _] & Hcode). contradiction.
Qed.

Lemma C3_witness :
  responded (serve (stub (heard NOTE) (completes (ContentText EmptyString)))
               (Some clip) "a1b2" ∅) 200
    (VObject [("transcript", VString NOTE);
              ("summary", VObject [("key_points", VArray [VString EmptyString]);
                                   ("action_items", VArray [])])]).
Proof.
  apply (C3_blank_content_is_not_a_failure
           (stub (heard NOTE) (completes (ContentText EmptyString)))
           clip "a1b2" ∅ {| text := Some NOTE |} NOTE
           {| choices := Some [{| choice_message := Some (ContentText EmptyString) |}] |}
           (ContentText EmptyString));
    [reflexivity | reflexivity | discriminate | reflexivity | reflexivity
    | right; right; reflexivity].
Defined.

(** *** Empty transcript *)

(** C4. When the transcription stage gives an empty or missing text, the
    request fails with the error of the transcript check and the only
    outbound call made is the transcription: the completion provider is not
    called. *)
Theorem C4_empty_transcript_fails_before_summarizing
    (P : providers) (bytes : list Byte.byte) (filename : string)
    (files : gmap string (list Byte.byte)) (t : transcript) :
  transcription P bytes = Resolved t ->
  text t = None \/ text t = Some EmptyString ->
  fails (serve P (Some bytes) filename files)
  /\ responded (serve P (Some bytes) filename files) 500
       (VObject [("error", VString "Transcription is empty or failed")])
  /\ calls (snd (serve P (Some bytes) filename files)) = [CallTranscribe bytes]
  /\ filter (fun c => is_chat_call c = true)
       (calls (snd (serve P (Some bytes) filename files))) = [].
Proof.
  intros Ht Hempty.
  assert (Hm : text_missing t = true) by (apply text_missing_true; assumption).
  rewrite (serve_transcript_missing P filename files bytes t Ht Hm).
  repeat split. eexists _, _. split; [reflexivity | discriminate].
Qed.

Lemma C4_witness :
  calls (snd (serve (stub (heard EmptyString) (completes (ContentText WELL_FORMED)))
                (Some clip) "a1b2" ∅))
  = [CallTranscribe clip].
Proof.
  apply (C4_empty_transcript_fails_before_summarizing
           (stub (heard EmptyString) (completes (ContentText WELL_FORMED)))
           clip "a1b2" ∅ {| text := Some EmptyString |});
    [reflexivity | right; reflexivity].
Defined.

(** *** Missing audio *)

(** C5, as the specification states it, at one request without the audio
    field: no 4xx response is sent. *)
Lemma C5_counterexample :
  ~ exists code b,
      responded (serve (stub (heard NOTE) (completes (ContentText WELL_FORMED)))
                   None "a1b2" ∅) code b
      /\ (400 <= code < 500)%Z.
Proof.
  intros (code & b & Hr & Hcode).
  unfold responded in Hr. cbn in Hr. injection Hr as <- _. lia.
Qed.

(** C5, amended. A request without the audio field fails with status 500
    and an error envelope, before any outbound call: neither provider is
    called and the files on disk are those from before the request. *)
Theorem C5_missing_audio_fails_with_500_before_any_call
    (P : providers) (filename : string) (files : gmap string (list Byte.byte)) :
  fails (serve P None filename files)
  /\ responded (serve P None filename files) 500
       (VObject [("error", VString (message (cannot_read "path")))])
  /\ calls (snd (serve P None filename files)) = []
  /\ fs (snd (serve P None filename files)) = files.
Proof.
  rewrite serve_without_audio. repeat split.
  eexists _, _. split; [reflexivity | discriminate].
Qed.

(** *** The staged file *)

(** The cleanup that the handler does: after a success the staged file is
    gone. *)
Lemma staged_file_removed_on_success
    (P : providers) (bytes : list Byte.byte) (filename : string)
    (files : gmap string (list Byte.byte)) :
  succeeds (serve P (Some bytes) filename files) ->
  fs (snd (serve P (Some bytes) filename files)) !! (uploads_dest +:+ filename) = None.
Proof.
  destruct (serve_uploaded_cases P filename files bytes)
    as [(made & e & ->) | (t & r & raw & _ & _ & _ & _ & ->)].
  - intros (b & Hr). discriminate Hr.
  - intros _. cbn. apply lookup_delete_eq.
Qed.

(** The cleanup that the handler does not do: after a failure the staged
    file is still there. *)
Lemma staged_file_kept_on_failure
    (P : providers) (bytes : list Byte.byte) (filename : string)
    (files : gmap string (list Byte.byte)) :
  fails (serve P (Some bytes) filename files) ->
  fs (snd (serve P (Some bytes) filename files)) !! (uploads_dest +:+ filename)
  = Some bytes.
Proof.
  destruct (serve_uploaded_cases P filename files bytes)
    as [(made & e & ->) | (t & r & raw & _ & _ & _ & _ & ->)].
  - intros _. cbn. apply lookup_insert_eq.
  - intros (code & b & Hr & Hcode). unfold responded in Hr. cbn in Hr.
    injection Hr as <- _. contradiction.
Qed.

(** C6, at the failing request: the clip is staged, the transcription
    gives an empty text, the request fails and the staged file is still on
    disk when the handler has finished. *)
Theorem C6_staged_file_left_after_empty_transcript :
  fails (serve (stub (heard EmptyString) (completes (ContentText WELL_FORMED)))
           (Some clip) "a1b2" ∅)
  /\ fs (snd (serve (stub (heard EmptyString) (completes (ContentText WELL_FORMED)))
                (Some clip) "a1b2" ∅)) !! "uploads/a1b2"
     = Some clip.
Proof.
  split.
  - eexists _, _. split; [reflexivity | discriminate].
  - apply (staged_file_kept_on_failure _ clip "a1b2" ∅).
    eexists _, _. split; [reflexivity | discriminate].
Qed.

(** *** The shape of a successful response *)

(** C7, as the specification states it, at one run: the completion text
    is valid JSON of another shape, the request succeeds, and its summary
    is not of the SummaryResult shape. *)
Lemma C7_counterexample :
  ~ (forall b,
       responded (serve (stub (heard NOTE)
                           (completes (ContentText ("{" +:+ quoted "key_points" +:+ ":"
                                                    +:+ quoted "none" +:+ "}"))))
                    (Some clip) "a1b2" ∅) 200 b ->
       has_summary_shape (field b "summary") = true).
Proof.
  intros H.
  specialize (H (VObject [("transcript", VString NOTE);
                          ("summary", VObject [("key_points", VString "none")])])
                eq_refl).
  discriminate H.
Qed.

(** C7, amended. The summary of every successful response is the outcome
    of parse-or-fallback on the completion content: either the value
    parsed from it, of whatever shape, or, when it is not valid JSON, the
    fallback object around the raw content, which has the SummaryResult
    shape. *)
Theorem C7_success_carries_parsed_value_or_fallback
    (P : providers) (audio : option (list Byte.byte)) (filename : string)
    (files : gmap string (list Byte.byte)) (b : value) :
  responded (serve P audio filename files) 200 b ->
  exists bytes t r raw,
    audio = Some bytes
    /\ transcription P bytes = Resolved t
    /\ completion P (completion_request (OPENROUTER_API_KEY P) (text_of t)) = Resolved r
    /\ first_content r = Returned raw
    /\ b = VObject [("transcript", VString (text_of t)); ("summary", field b "summary")]
    /\ (JSON.parse (content_to_string raw) = Some (field b "summary")
        \/ (JSON.parse (content_to_string raw) = None
            /\ field b "summary" = fallback_summary raw
            /\ has_summary_shape (field b "summary") = true)).
Proof.
  destruct audio as [bytes|]; [|discriminate].
  destruct (serve_uploaded_cases P filename files bytes)
    as [(made & e & ->) | (t & r & raw & Ht & Hm & Hc & Hf & ->)];
    [discriminate|].
  unfold responded, success_world. cbn. intros [= <-].
  exists bytes, t, r, raw. repeat (split; [assumption || reflexivity|]).
  cbn. unfold parse_or_fallback.
  destruct (JSON.parse (content_to_string raw)); [left | right]; repeat split.
Qed.

Lemma C7_witness :
  exists bytes t r raw,
    Some clip = Some bytes
    /\ transcription (stub (heard NOTE) (completes (ContentText CHATTY))) bytes = Resolved t
    /\ completion (stub (heard NOTE) (completes (ContentText CHATTY)))
         (completion_request (Some "test-key") (text_of t)) = Resolved r
    /\ first_content r = Returned raw
    /\ success_body NOTE (fallback_summary (ContentText CHATTY))
       = VObject [("transcript", VString (text_of t));
                  ("summary", fallback_summary (ContentText CHATTY))]
    /\ (JSON.parse (content_to_string raw) = Some (fallback_summary (ContentText CHATTY))
        \/ (JSON.parse (content_to_string raw) = None
            /\ fallback_summary (ContentText CHATTY) = fallback_summary raw
            /\ has_summary_shape (fallback_summary (ContentText CHATTY)) = true)).
Proof.
  apply (C7_success_carries_parsed_value_or_fallback
           (stub (heard NOTE) (completes (ContentText CHATTY)))
           (Some clip) "a1b2" ∅
           (success_body NOTE (fallback_summary (ContentText CHATTY)))).
  reflexivity.
Defined.

(** *** The transcript on its way through *)

(** C8. A non-empty transcript text T is handed to the summarization
    stage as it is: the one call to the completion provider carries the
    request built from T, whose user message is T between the two fixed
    parts of the prompt.  When the completion provider answers and its
    reply can be read, the response is a 200 whose transcript field is T;
    and no 200 response has another transcript. *)
Theorem C8_transcript_reaches_summarizer_and_response
    (P : providers) (bytes : list Byte.byte) (filename : string)
    (files : gmap string (list Byte.byte)) (t : transcript) (T : string) :
  transcription P bytes = Resolved t ->
  text t = Some T ->
  T <> EmptyString ->
  calls (snd (serve P (Some bytes) filename files))
  = [CallTranscribe bytes; CallChat (completion_request (OPENROUTER_API_KEY P) T)]
  /\ messages (completion_request (OPENROUTER_API_KEY P) T)
     = [("system", SYSTEM_PROMPT); ("user", prompt_head +:+ T +:+ prompt_tail)]
  /\ (forall r raw,
        completion P (completion_request (OPENROUTER_API_KEY P) T) = Resolved r ->
        first_content r = Returned raw ->
        responded (serve P (Some bytes) filename files) 200
          (VObject [("transcript", VString T); ("summary", parse_or_fallback raw)]))
  /\ (forall b, responded (serve P (Some bytes) filename files) 200 b ->
        field b "transcript" = VString T).
Proof.
  intros Ht HT Hne.
  assert (Hm : text_missing t = false) by (apply text_missing_false; eauto).
  rewrite <- (text_of_Some t T HT).
  split; [|split; [reflexivity|split]].
  - destruct (completion P (completion_request (OPENROUTER_API_KEY P) (text_of t)))
      as [r|e] eqn:Hc.
    + destruct (first_content r) as [raw|e] eqn:Hf.
      * now rewrite (serve_summarized P filename files bytes t r raw Ht Hm Hc Hf).
      * now rewrite (serve_content_unreadable P filename files bytes t r e Ht Hm Hc Hf).
    + now rewrite (serve_chat_rejected P filename files bytes t e Ht Hm Hc).
  - intros r raw Hc Hf.
    now rewrite (serve_summarized P filename files bytes t r raw Ht Hm Hc Hf).
  - intros b.
    destruct (serve_uploaded_cases P filename files bytes)
      as [(made & e & ->) | (t' & r & raw & Ht' & _ & _ & _ & ->)];
      [discriminate|].
    assert (t' = t) as -> by congruence.
    unfold responded, success_world. cbn. now intros [= <-].
Qed.

Lemma C8_witness :
  calls (snd (serve (stub (heard NOTE) (completes (ContentText WELL_FORMED)))
                (Some clip) "a1b2" ∅))
  = [CallTranscribe clip; CallChat (completion_request (Some "test-key") NOTE)]
  /\ responded (serve (stub (heard NOTE) (completes (ContentText WELL_FORMED)))
                  (Some clip) "a1b2" ∅) 200
       (VObject [("transcript", VString NOTE);
                 ("summary", parse_or_fallback (ContentText WELL_FORMED))]).
Proof.
  destruct (C8_transcript_reaches_summarizer_and_response
              (stub (heard NOTE) (completes (ContentText WELL_FORMED)))
              clip "a1b2" ∅ {| text := Some NOTE |} NOTE)
    as (Hcalls & _ & Hsent & _);
    [reflexivity | reflexivity | discriminate |].
  split; [exact Hcalls|].
  apply (Hsent {| choices := Some [{| choice_message :=
                                        Some (ContentText WELL_FORMED) |}] |}
           (ContentText WELL_FORMED));
    reflexivity.
Defined.

Lemma string_length_append (s1 s2 : string) :
  String.length (s1 +:+ s2) = String.length s1 + String.length s2.
Proof.
  induction s1 as [|c s1 IH]; [reflexivity|].
  change (S (String.length (s1 +:+ s2)) = S (String.length s1 + String.length s2)).
  now rewrite IH.
Qed.

Lemma string_append_cancel_r (s1 s2 tl : string) :
  s1 +:+ tl = s2 +:+ tl -> s1 = s2.
Proof.
  intros H.
  assert (Hl : String.length s1 = String.length s2).
  { apply (f_equal String.length) in H. rewrite !string_length_append in H. lia. }
  revert s2 Hl H. induction s1 as [|c s1 IH]; intros [|c' s2] Hl H;
    try discriminate; [reflexivity|].
  change (String c (s1 +:+ tl) = String c' (s2 +:+ tl)) in H.
  injection H as -> H. f_equal. apply IH; [|assumption].
  cbn in Hl. lia.
Qed.

(** The transcript can be read back from the user message. *)
Lemma user_prompt_inj (T1 T2 : string) :
  user_prompt T1 = user_prompt T2 -> T1 = T2.
Proof.
  unfold user_prompt. intros H.
  apply (inj (String.append prompt_head)) in H.
  now apply string_append_cancel_r in H.
Qed.

(** *** A non-success status of the completion provider *)

(** C9, as the specification states it, fails: no function reads the
    upstream status back from the response, since a 429 and a 503 with the
    same body are answered alike. *)
Lemma C9_counterexample :
  ~ exists recover : http_response -> Z * value,
      forall code msg upstream_body r,
        res (snd (serve (stub (heard NOTE)
                           (Rejected (status_error code msg upstream_body)))
                    (Some clip) "a1b2" ∅)) = Some r ->
        recover r = (code, upstream_body).
Proof.
  intros (recover & H).
  pose proof (H 429%Z "Request failed with status code 429" (VString "busy") _ eq_refl) as H1.
  pose proof (H 503%Z "Request failed with status code 503" (VString "busy") _ eq_refl) as H2.
  cbv in H1, H2. rewrite H1 in H2. discriminate H2.
Qed.

(** C9, amended. When the completion provider answers with a non-success
    status, the request fails with status 500; the error field of the
    envelope is the raw upstream body when that body is truthy, and the
    message of the error otherwise; the upstream status is written to the
    console and is not part of the envelope. *)
Theorem C9_upstream_status_error_envelope
    (P : providers) (bytes : list Byte.byte) (filename : string)
    (files : gmap string (list Byte.byte)) (t : transcript) (T : string)
    (e : js_error) (up : upstream_response) :
  transcription P bytes = Resolved t ->
  text t = Some T ->
  T <> EmptyString ->
  completion P (completion_request (OPENROUTER_API_KEY P) T) = Rejected e ->
  response e = Some up ->
  fails (serve P (Some bytes) filename files)
  /\ responded (serve P (Some bytes) filename files) 500
       (VObject [("error",
                  if truthy (data up) then data up
                  else js_or (VString (message e)) (VString "Something went wrong"))])
  /\ console (snd (serve P (Some bytes) filename files))
     = [[VString "BACKEND ERROR:";
         config_url_value e;
         VNumber (binary_normalize JSON.prec JSON.emax (status up) 0 false);
         js_or (data up) (VString (message e))]].
Proof.
  intros Ht HT Hne Hc Hup.
  assert (Hm : text_missing t = false) by (apply text_missing_false; eauto).
  rewrite <- (text_of_Some t T HT) in Hc.
  rewrite (serve_chat_rejected P filename files bytes t e Ht Hm Hc).
  unfold fails, responded, failure_world, error_envelope, error_log_line,
    response_data, response_status. cbn. rewrite Hup.
  split; [eexists _, _; split; [reflexivity | discriminate]|].
  split; [|reflexivity].
  unfold js_or at 2. destruct (truthy (data up)) eqn:Htr.
  - unfold js_or. now rewrite Htr.
  - reflexivity.
Qed.

Lemma C9_witness :
  responded (serve (stub (heard NOTE)
                      (Rejected (status_error 429 "Request failed with status code 429"
                                   (VObject [("error", VString "rate limited")]))))
               (Some clip) "a1b2" ∅) 500
    (VObject [("error", VObject [("error", VString "rate limited")])]).
Proof.
  apply (C9_upstream_status_error_envelope
           (stub (heard NOTE)
              (Rejected (status_error 429 "Request failed with status code 429"
                           (VObject [("error", VString "rate limited")]))))
           clip "a1b2" ∅ {| text := Some NOTE |} NOTE
           (status_error 429 "Request failed with status code 429"
              (VObject [("error", VString "rate limited")]))
           {| status := 429; data := VObject [("error", VString "rate limited")] |});
    [reflexivity | reflexivity | discriminate | reflexivity | reflexivity].
Defined.

(** ** Properties of the frontend *)

Import Frontend.

Lemma apply_effects_app (st : state) (es1 es2 : list effect) :
  apply_effects st (es1 ++ es2) = apply_effects (apply_effects st es1) es2.
Proof. apply fold_left_app. Qed.

(** Whatever the server answers, a submit with a recording sets the
    loading flag, sends one request, and clears the flag as its last
    effect; nothing in between sends a request or touches the flag. *)
Lemma handleSubmit_with_recording (st : state) (server : fetch_request -> fetch_outcome)
    (b : blob) :
  audioBlob st = Some b ->
  exists rest,
    handleSubmit st server
    = [SetLoading true; SetTranscript (VString EmptyString);
       SetSummary (VString EmptyString); Fetch (submit_request b)]
      ++ rest ++ [SetLoading false]
    /\ Forall (fun e => is_fetch e = false /\ keeps_loading e) rest.
Proof.
  intros Hb. unfold handleSubmit. rewrite Hb.
  destruct (after_fetch (server (submit_request b))) as [performed thrown] eqn:Ha.
  exists (performed ++ match thrown with
                       | Some err => [ConsoleError err; Alert "Failed to process audio."]
                       | None => []
                       end).
  split; [now rewrite <- app_assoc|].
  apply Forall_app. split.
  - unfold after_fetch in Ha.
    destruct (server (submit_request b)) as [|ok [data|]];
      try (injection Ha as <- <-; constructor).
    destruct ok; cbn in Ha.
    + destruct (get data "transcript"), (get data "summary");
        injection Ha as <- <-; repeat constructor.
    + destruct (get data "error"); injection Ha as <- <-; constructor.
  - destruct thrown; repeat constructor.
Qed.

Lemma loading_preserved (st : state) (es : list effect) :
  Forall keeps_loading es ->
  loading (apply_effects st es) = loading st.
Proof.
  intros H. revert st. induction H as [|e es He _ IH]; intros st; [reflexivity|].
  cbn. unfold apply_effects in IH. now rewrite IH, He.
Qed.

(** A proper prefix of [mid ++ [z]] is a prefix of [mid]. *)
Lemma proper_prefix_of_snoc {A : Type} (p : list A) (e : A) (after mid : list A) (z : A) :
  p ++ e :: after = mid ++ [z] -> exists q, mid = p ++ q.
Proof.
  revert mid. induction p as [|a p IH]; intros mid H; [now exists mid|].
  destruct mid as [|m mid].
  - destruct p; discriminate.
  - injection H as -> H. destruct (IH mid H) as (q & ->). now exists q.
Qed.

(** C10. Without a recording, a submit only shows the alert: it sends no
    request and changes no state.  The submit button is disabled exactly
    when there is no recording or the loading flag is set, and the flag is
    set all the while a request is in flight: from the request up to the
    last effect of the submit. *)
Theorem C10_no_recording_no_request
    (st : state) (server : fetch_request -> fetch_outcome) :
  (audioBlob st = None ->
     handleSubmit st server = [Alert "Please record a voice note first."]
     /\ filter (fun e => is_fetch e = true) (handleSubmit st server) = []
     /\ apply_effects st (handleSubmit st server) = st)
  /\ (submit_disabled st = true <-> audioBlob st = None \/ loading st = true)
  /\ (forall before req during e after,
        handleSubmit st server = before ++ Fetch req :: during ++ e :: after ->
        submit_disabled (apply_effects st (before ++ Fetch req :: during)) = true).
Proof.
  split; [|split].
  - intros Hb. unfold handleSubmit. rewrite Hb. repeat split.
  - unfold submit_disabled. destruct (loading st), (audioBlob st); cbn; split; auto.
    intros [|]; discriminate.
  - intros before req during e after Hsplit.
    destruct (audioBlob st) as [b|] eqn:Hb.
    2:{ unfold handleSubmit in Hsplit. rewrite Hb in Hsplit.
        destruct before as [|? [|? ?]]; discriminate. }
    destruct (handleSubmit_with_recording st server b Hb) as (rest & Hs & Hrest).
    rewrite Hs in Hsplit. clear Hs.
    assert (Hload : loading (apply_effects st (before ++ Fetch req :: during)) = true);
      [|unfold submit_disabled; now rewrite Hload].
    remember (before ++ Fetch req :: during) as trace eqn:Etrace.
    assert (Htrace : trace ++ e :: after
                 = SetLoading true
                   :: ([SetTranscript (VString EmptyString);
                        SetSummary (VString EmptyString);
                        Fetch (submit_request b)] ++ rest) ++ [SetLoading false]).
    { subst trace. rewrite <- app_assoc. cbn. now rewrite <- Hsplit. }
    clear Hsplit.
    destruct trace as [|e1 trace]; [destruct before; discriminate|].
    injection Htrace as -> Htrace.
    change (trace ++ e :: after
            = ([SetTranscript (VString EmptyString);
                SetSummary (VString EmptyString);
                Fetch (submit_request b)] ++ rest) ++ [SetLoading false]) in Htrace.
    apply proper_prefix_of_snoc in Htrace as (q & Hq).
    assert (Hall : Forall keeps_loading (trace ++ q)).
    { rewrite <- Hq. repeat (constructor; [intros ?; reflexivity|]).
      eapply Forall_impl; [exact Hrest|]. now intros ? [_ ?]. }
    apply Forall_app in Hall as [Hall _].
    change (loading (apply_effects (apply_effect st (SetLoading true)) trace) = true).
    now rewrite (loading_preserved _ trace Hall).
Qed.

Lemma C10_witness :
  handleSubmit idle (fun _ => NetworkFailure) = [Alert "Please record a voice note first."]
  /\ filter (fun e => is_fetch e = true) (handleSubmit idle (fun _ => NetworkFailure)) = []
  /\ apply_effects idle (handleSubmit idle (fun _ => NetworkFailure)) = idle.
Proof.
  apply (C10_no_recording_no_request idle (fun _ => NetworkFailure)).
  reflexivity.
Defined.

(** ** More on the backend *)

Lemma truthy_js_or_r (a b : value) : truthy b = true -> truthy (js_or a b) = true.
Proof. intros Hb. unfold js_or. now destruct (truthy a) eqn:Ha. Qed.

Lemma error_envelope_truthy (e : js_error) :
  exists reason, error_envelope e = VObject [("error", reason)] /\ truthy reason = true.
Proof. eexists. split; [reflexivity|]. now apply truthy_js_or_r. Qed.

(** An error that carries no upstream response is reported by its
    message, or by the stock text when the message is empty. *)
Lemma error_envelope_plain (e : js_error) :
  response e = None ->
  error_envelope e
  = VObject [("error",
              VString (if String.eqb (message e) EmptyString
                       then "Something went wrong" else message e))].
Proof.
  intros He. unfold error_envelope, response_data. rewrite He.
  unfold js_or. cbn. now destruct (String.eqb (message e) EmptyString).
Qed.

(** X1. Whatever makes a request fail, the failure is a 500 whose body
    is an object with the single field [error], and that field is never
    blank: it is truthy. *)
Theorem failure_envelope_is_never_blank
    (P : providers) (audio : option (list Byte.byte)) (filename : string)
    (files : gmap string (list Byte.byte)) (code : Z) (b : value) :
  responded (serve P audio filename files) code b ->
  code <> 200%Z ->
  code = 500%Z
  /\ exists reason, b = VObject [("error", reason)] /\ truthy reason = true.
Proof.
  intros Hr Hcode. unfold responded in Hr.
  assert (Hcase : exists fs' made e,
             serve P audio filename files = (Returned tt, failure_world fs' made e)).
  { destruct audio as [bytes|].
    - destruct (serve_uploaded_cases P filename files bytes)
        as [(made & e & Hs) | (t & r & raw & _ & _ & _ & _ & Hs)]; [eauto|].
      rewrite Hs in Hr. cbn in Hr. injection Hr as <- _. contradiction.
    - eexists _, _, _. apply serve_without_audio. }
  destruct Hcase as (fs' & made & e & Hs). rewrite Hs in Hr. cbn in Hr.
  injection Hr as <- <-. split; [reflexivity | apply error_envelope_truthy].
Qed.

Lemma failure_envelope_is_never_blank_witness :
  500%Z = 500%Z
  /\ exists reason,
       VObject [("error", VString "Transcription is empty or failed")]
       = VObject [("error", reason)]
       /\ truthy reason = true.
Proof.
  apply (failure_envelope_is_never_blank
           (stub (heard EmptyString) (completes (ContentText WELL_FORMED)))
           (Some clip) "a1b2" ∅ 500
           (VObject [("error", VString "Transcription is empty or failed")]));
    [reflexivity | discriminate].
Defined.


(** X3. The outbound calls of a request are a prefix of: one
    transcription of the uploaded bytes, then one completion request built
    from the transcript text.  No provider is called twice, the completion
    provider is never called before or without a non-empty transcript, and
    nothing is called for a request without audio. *)
Theorem outbound_calls_are_ordered_and_single
    (P : providers) (audio : option (list Byte.byte)) (filename : string)
    (files : gmap string (list Byte.byte)) :
  (audio = None /\ calls (snd (serve P audio filename files)) = [])
  \/ exists bytes,
       audio = Some bytes
       /\ (calls (snd (serve P audio filename files)) = [CallTranscribe bytes]
           \/ exists t,
                transcription P bytes = Resolved t
                /\ text_missing t = false
                /\ calls (snd (serve P audio filename files))
                   = [CallTranscribe bytes;
                      CallChat (completion_request (OPENROUTER_API_KEY P) (text_of t))]).
Proof.
  destruct audio as [bytes|]; [right; exists bytes; split; [reflexivity|] | now left].
  destruct (transcription P bytes) as [t|e] eqn:Ht.
  2:{ left. now rewrite (serve_transcribe_rejected P filename files bytes e Ht). }
  destruct (text_missing t) eqn:Hm.
  { left. now rewrite (serve_transcript_missing P filename files bytes t Ht Hm). }
  right. exists t. split; [reflexivity|]. split; [exact Hm|].
  destruct (completion P (completion_request (OPENROUTER_API_KEY P) (text_of t)))
    as [r|e] eqn:Hc.
  - destruct (first_content r) as [raw|e] eqn:Hf.
    + now rewrite (serve_summarized P filename files bytes t r raw Ht Hm Hc Hf).
    + now rewrite (serve_content_unreadable P filename files bytes t r e Ht Hm Hc Hf).
  - now rewrite (serve_chat_rejected P filename files bytes t e Ht Hm Hc).
Qed.

(** X4. When the transcription provider cannot be reached or rejects,
    the request fails with the message of that error (the stock text if
    the message is empty) and the completion provider is not called. *)
Theorem transcription_failure_is_reported
    (P : providers) (bytes : list Byte.byte) (filename : string)
    (files : gmap string (list Byte.byte)) (e : js_error) :
  transcription P bytes = Rejected e ->
  response e = None ->
  responded (serve P (Some bytes) filename files) 500
    (VObject [("error",
               VString (if String.eqb (message e) EmptyString
                        then "Something went wrong" else message e))])
  /\ calls (snd (serve P (Some bytes) filename files)) = [CallTranscribe bytes].
Proof.
  intros Ht He.
  rewrite (serve_transcribe_rejected P filename files bytes e Ht).
  unfold responded, failure_world. cbn. now rewrite (error_envelope_plain e He).
Qed.

Lemma transcription_failure_is_reported_witness :
  responded (serve (stub (Rejected (plain_error "connect ECONNREFUSED"))
                      (completes (ContentText WELL_FORMED)))
               (Some clip) "a1b2" ∅) 500
    (VObject [("error", VString "connect ECONNREFUSED")])
  /\ calls (snd (serve (stub (Rejected (plain_error "connect ECONNREFUSED"))
                          (completes (ContentText WELL_FORMED)))
                   (Some clip) "a1b2" ∅))
     = [CallTranscribe clip].
Proof.
  apply (transcription_failure_is_reported
           (stub (Rejected (plain_error "connect ECONNREFUSED"))
              (completes (ContentText WELL_FORMED)))
           clip "a1b2" ∅ (plain_error "connect ECONNREFUSED"));
    reflexivity.
Defined.

(** X5. When the completion provider cannot be reached (the error has no
    upstream response), the request fails with the message of that error,
    or with the stock text "Something went wrong" if the message is
    empty. *)
Theorem completion_transport_failure_is_reported
    (P : providers) (bytes : list Byte.byte) (filename : string)
    (files : gmap string (list Byte.byte)) (t : Backend.transcript) (e : js_error) :
  transcription P bytes = Resolved t ->
  text_missing t = false ->
  completion P (completion_request (OPENROUTER_API_KEY P) (text_of t)) = Rejected e ->
  response e = None ->
  responded (serve P (Some bytes) filename files) 500
    (VObject [("error",
               VString (if String.eqb (message e) EmptyString
                        then "Something went wrong" else message e))]).
Proof.
  intros Ht Hm Hc He.
  rewrite (serve_chat_rejected P filename files bytes t e Ht Hm Hc).
  unfold responded, failure_world. cbn. now rewrite (error_envelope_plain e He).
Qed.

Lemma completion_transport_failure_is_reported_witness :
  responded (serve (stub (heard NOTE) (Rejected (plain_error EmptyString)))
               (Some clip) "a1b2" ∅) 500
    (VObject [("error", VString "Something went wrong")]).
Proof.
  apply (completion_transport_failure_is_reported
           (stub (heard NOTE) (Rejected (plain_error EmptyString)))
           clip "a1b2" ∅ {| text := Some NOTE |} (plain_error EmptyString));
    reflexivity.
Defined.

(** *** The disk *)

Lemma disk_after_request
    (P : providers) (bytes : list Byte.byte) (filename : string)
    (files : gmap string (list Byte.byte)) :
  (succeeds (serve P (Some bytes) filename files)
   /\ fs (snd (serve P (Some bytes) filename files))
      = delete (uploads_dest +:+ filename) (<[uploads_dest +:+ filename := bytes]> files))
  \/ (fails (serve P (Some bytes) filename files)
      /\ fs (snd (serve P (Some bytes) filename files))
         = <[uploads_dest +:+ filename := bytes]> files).
Proof.
  destruct (serve_uploaded_cases P filename files bytes)
    as [(made & e & ->) | (t & r & raw & _ & _ & _ & _ & ->)].
  - right. split; [|reflexivity]. eexists _, _. split; [reflexivity | discriminate].
  - left. split; [|reflexivity]. eexists. reflexivity.
Qed.

(** X6. A request touches no file other than its own staged upload:
    every other path holds after the request what it held before. *)
Theorem other_files_are_untouched
    (P : providers) (audio : option (list Byte.byte)) (filename : string)
    (files : gmap string (list Byte.byte)) (p : string) :
  p <> uploads_dest +:+ filename ->
  fs (snd (serve P audio filename files)) !! p = files !! p.
Proof.
  intros Hp. destruct audio as [bytes|]; [|reflexivity].
  destruct (disk_after_request P bytes filename files) as [[_ ->] | [_ ->]].
  - rewrite lookup_delete_ne, lookup_insert_ne; congruence.
  - rewrite lookup_insert_ne; congruence.
Qed.

Lemma other_files_are_untouched_witness :
  fs (snd (serve (stub (heard NOTE) (completes (ContentText WELL_FORMED)))
             (Some clip) "a1b2" {["uploads/older" := clip]})) !! "uploads/older"
  = ({["uploads/older" := clip]} : gmap string (list Byte.byte)) !! "uploads/older".
Proof.
  apply (other_files_are_untouched
           (stub (heard NOTE) (completes (ContentText WELL_FORMED)))
           (Some clip) "a1b2" {["uploads/older" := clip]} "uploads/older").
  discriminate.
Defined.

(** X7. Staging and cleanup cancel out: after a successful request whose
    staging path was free, the disk is exactly as it was before. *)
Theorem success_leaves_the_disk_as_it_was
    (P : providers) (bytes : list Byte.byte) (filename : string)
    (files : gmap string (list Byte.byte)) :
  files !! (uploads_dest +:+ filename) = None ->
  succeeds (serve P (Some bytes) filename files) ->
  fs (snd (serve P (Some bytes) filename files)) = files.
Proof.
  intros Hfree Hok.
  destruct (disk_after_request P bytes filename files) as [[_ ->] | [Hfail _]].
  - now rewrite delete_insert_eq, delete_id.
  - destruct Hok as (b & Hb), Hfail as (code & b' & Hb' & Hcode).
    unfold responded in Hb, Hb'. rewrite Hb in Hb'. now injection Hb' as <- _.
Qed.

Lemma success_leaves_the_disk_as_it_was_witness :
  fs (snd (serve (stub (heard NOTE) (completes (ContentText WELL_FORMED)))
             (Some clip) "a1b2" ∅)) = ∅.
Proof.
  apply (success_leaves_the_disk_as_it_was
           (stub (heard NOTE) (completes (ContentText WELL_FORMED)))
           clip "a1b2" ∅);
    [reflexivity | eexists; reflexivity].
Defined.

(** X8. After any failed request that carried an upload, the disk holds
    what it held before plus the staged upload with its bytes: the handler
    removes nothing on a failure. *)
Theorem failure_leaves_exactly_the_staged_file
    (P : providers) (bytes : list Byte.byte) (filename : string)
    (files : gmap string (list Byte.byte)) :
  fails (serve P (Some bytes) filename files) ->
  fs (snd (serve P (Some bytes) filename files))
  = <[uploads_dest +:+ filename := bytes]> files.
Proof.
  intros Hfail.
  destruct (disk_after_request P bytes filename files) as [[Hok _] | [_ ->]];
    [|reflexivity].
  destruct Hok as (b & Hb), Hfail as (code & b' & Hb' & Hcode).
  unfold responded in Hb, Hb'. rewrite Hb in Hb'. now injection Hb' as <- _.
Qed.

Lemma failure_leaves_exactly_the_staged_file_witness :
  fs (snd (serve (stub (Rejected (plain_error "connect ECONNREFUSED"))
                    (completes (ContentText WELL_FORMED)))
             (Some clip) "a1b2" ∅))
  = <[uploads_dest +:+ "a1b2" := clip]> ∅.
Proof.
  apply (failure_leaves_exactly_the_staged_file
           (stub (Rejected (plain_error "connect ECONNREFUSED"))
              (completes (ContentText WELL_FORMED)))
           clip "a1b2" ∅).
  eexists _, _. split; [reflexivity | discriminate].
Defined.

Lemma summary_of_strings_passes_through_witness :
  responded (serve (stub (heard NOTE)
                      (completes (ContentText
                                    (JSON.stringify_summary ["Buy milk"] ["Call Bob"]))))
               (Some clip) "a1b2" ∅) 200
    (VObject [("transcript", VString NOTE);
              ("summary",
               VObject [("key_points", VArray [VString "Buy milk"]);
                        ("action_items", VArray [VString "Call Bob"])])]).
Proof.
  apply (summary_of_strings_passes_through
           (stub (heard NOTE)
              (completes (ContentText (JSON.stringify_summary ["Buy milk"] ["Call Bob"]))))
           clip "a1b2" ∅ {| text := Some NOTE |}
           {| choices := Some [{| choice_message :=
                                    Some (ContentText
                                            (JSON.stringify_summary ["Buy milk"] ["Call Bob"])) |}] |}
           ["Buy milk"] ["Call Bob"]);
    reflexivity.
Defined.

(** X10. The handler on an upload whose staged file cannot be read: it
    answers 500 with the message of the file-system error and calls no
    provider. *)
Theorem unreadable_upload_is_reported
    (P : providers) (f : uploaded_file) (w : world) :
  fs w !! path f = None ->
  res w = None ->
  transcribe_and_summarize P {| file := Some f |} w
  = (Returned tt,
     {| fs := fs w;
        calls := calls w;
        console := console w ++ [error_log_line (ENOENT "open" (path f))];
        res := Some {| status_code := 500;
                       body := VObject [("error",
                                         VString (message (ENOENT "open" (path f))))] |} |}).
Proof.
  intros Hf Hres.
  unfold transcribe_and_summarize, try_catch, eval, file_path, readFileSync,
    console_error, res_status_json, mbind, M_bind.
  cbn [file path fs calls console res]. now rewrite Hf, Hres.
Qed.

Lemma unreadable_upload_is_reported_witness :
  transcribe_and_summarize (stub (heard NOTE) (completes (ContentText WELL_FORMED)))
    {| file := Some {| path := "uploads/gone" |} |} (start ∅)
  = (Returned tt,
     {| fs := ∅;
        calls := [];
        console := [error_log_line (ENOENT "open" "uploads/gone")];
        res := Some {| status_code := 500;
                       body := VObject [("error",
                                         VString (message (ENOENT "open" "uploads/gone")))] |} |}).
Proof.
  apply (unreadable_upload_is_reported
           (stub (heard NOTE) (completes (ContentText WELL_FORMED)))
           {| path := "uploads/gone" |} (start ∅));
    reflexivity.
Defined.

(** X11. The handler does not check that the credential is configured:
    without OPENROUTER_API_KEY the completion request is still sent, and
    its Authorization header reads "Bearer undefined". *)
Theorem missing_api_key_is_sent_as_undefined
    (P : providers) (bytes : list Byte.byte) (filename : string)
    (files : gmap string (list Byte.byte)) (t : Backend.transcript) :
  OPENROUTER_API_KEY P = None ->
  transcription P bytes = Resolved t ->
  text_missing t = false ->
  exists req,
    calls (snd (serve P (Some bytes) filename files)) = [CallTranscribe bytes; CallChat req]
    /\ url req = COMPLETIONS_URL
    /\ In ("Authorization", "Bearer undefined") (headers req).
Proof.
  intros Hkey Ht Hm.
  exists (completion_request None (text_of t)).
  split; [|split; [reflexivity | left; reflexivity]].
  rewrite <- Hkey.
  destruct (completion P (completion_request (OPENROUTER_API_KEY P) (text_of t)))
    as [r|e] eqn:Hc.
  - destruct (first_content r) as [raw|e] eqn:Hf.
    + now rewrite (serve_summarized P filename files bytes t r raw Ht Hm Hc Hf).
    + now rewrite (serve_content_unreadable P filename files bytes t r e Ht Hm Hc Hf).
  - now rewrite (serve_chat_rejected P filename files bytes t e Ht Hm Hc).
Qed.

Lemma missing_api_key_is_sent_as_undefined_witness :
  exists req,
    calls (snd (serve {| transcription := fun _ => heard NOTE;
                         completion := fun _ => completes (ContentText WELL_FORMED);
                         OPENROUTER_API_KEY := None |}
                  (Some clip) "a1b2" ∅))
    = [CallTranscribe clip; CallChat req]
    /\ url req = COMPLETIONS_URL
    /\ In ("Authorization", "Bearer undefined") (headers req).
Proof.
  apply (missing_api_key_is_sent_as_undefined
           {| transcription := fun _ => heard NOTE;
              completion := fun _ => completes (ContentText WELL_FORMED);
              OPENROUTER_API_KEY := None |}
           clip "a1b2" ∅ {| text := Some NOTE |});
    reflexivity.
Defined.

(** ** More on the submit *)

Lemma apply_effects_keeps_recording (st : state) (es : list effect) :
  isRecording (apply_effects st es) = isRecording st
  /\ audioBlob (apply_effects st es) = audioBlob st.
Proof.
  revert st. induction es as [|e es IH]; intros st; [now split|].
  change (apply_effects st (e :: es)) with (apply_effects (apply_effect st e) es).
  destruct (IH (apply_effect st e)) as [-> ->]. now destruct e.
Qed.

Lemma handleSubmit_settles (st : state) (server : fetch_request -> fetch_outcome)
    (b : blob) :
  audioBlob st = Some b ->
  loading (apply_effects st (handleSubmit st server)) = false.
Proof.
  intros Hb.
  destruct (handleSubmit_with_recording st server b Hb) as (rest & -> & Hrest).
  rewrite app_assoc, apply_effects_app. reflexivity.
Qed.

(** X12. A submit that the server answers with an ok status and a JSON
    body holding a result the page can render (a string as transcript; as
    summary a value whose key_points and action_items are each absent,
    [null] or an array of strings) ends with that transcript and that
    summary in the state and the loading flag cleared, and the submit
    itself shows no alert and logs no error. *)
Theorem submit_shows_the_result
    (st : state) (server : fetch_request -> fetch_outcome) (b : blob)
    (data t s : value) :
  audioBlob st = Some b ->
  server (submit_request b) = Reply true (Some data) ->
  get data "transcript" = inr t ->
  get data "summary" = inr s ->
  renderable_result t s = true ->
  handleSubmit st server
  = [SetLoading true; SetTranscript (VString EmptyString);
     SetSummary (VString EmptyString); Fetch (submit_request b);
     SetTranscript t; SetSummary s; SetLoading false]
  /\ apply_effects st (handleSubmit st server)
     = {| isRecording := isRecording st; audioBlob := Some b;
          transcript := t; summary := s; loading := false |}.
Proof.
  intros Hb Hserver Ht Hs _.
  assert (Htrace : handleSubmit st server
                   = [SetLoading true; SetTranscript (VString EmptyString);
                      SetSummary (VString EmptyString); Fetch (submit_request b);
                      SetTranscript t; SetSummary s; SetLoading false]).
  { unfold handleSubmit. rewrite Hb, Hserver. cbn [after_fetch negb].
    now rewrite Ht, Hs. }
  split; [exact Htrace|]. rewrite Htrace. cbn. now rewrite Hb.
Qed.

Lemma submit_shows_the_result_witness :
  apply_effects ready
    (handleSubmit ready
       (fun _ => Reply true
                   (Some (VObject
                            [("transcript", VString NOTE);
                             ("summary",
                              VObject [("key_points", VArray [VString "Buy milk"]);
                                       ("action_items", VArray [VString "Call Bob"])])]))))
  = {| isRecording := false; audioBlob := Some recorded;
       transcript := VString NOTE;
       summary := VObject [("key_points", VArray [VString "Buy milk"]);
                           ("action_items", VArray [VString "Call Bob"])];
       loading := false |}.
Proof.
  apply (submit_shows_the_result ready
           (fun _ => Reply true
                       (Some (VObject
                                [("transcript", VString NOTE);
                                 ("summary",
                                  VObject [("key_points", VArray [VString "Buy milk"]);
                                           ("action_items",
                                            VArray [VString "Call Bob"])])])))
           recorded
           (VObject
              [("transcript", VString NOTE);
               ("summary",
                VObject [("key_points", VArray [VString "Buy milk"]);
                         ("action_items", VArray [VString "Call Bob"])])])
           (VString NOTE)
           (VObject [("key_points", VArray [VString "Buy milk"]);
                     ("action_items", VArray [VString "Call Bob"])]));
    reflexivity.
Defined.

(** X13. A submit that fails in any way (no connection, a body that is
    not JSON, a status that is not ok, a [null] body) logs the error, shows
    the one alert "Failed to process audio." and ends with transcript and
    summary cleared and the loading flag cleared: what was shown before the
    submit is gone. *)
Theorem submit_failure_alerts_and_clears
    (st : state) (server : fetch_request -> fetch_outcome) (b : blob) :
  audioBlob st = Some b ->
  unusable (server (submit_request b)) ->
  (exists err,
      handleSubmit st server
      = [SetLoading true; SetTranscript (VString EmptyString);
         SetSummary (VString EmptyString); Fetch (submit_request b);
         ConsoleError err; Alert "Failed to process audio."; SetLoading false])
  /\ apply_effects st (handleSubmit st server)
     = {| isRecording := isRecording st; audioBlob := Some b;
          transcript := VString EmptyString; summary := VString EmptyString;
          loading := false |}.
Proof.
  intros Hb Hbad.
  assert (Htrace : exists err,
             handleSubmit st server
             = [SetLoading true; SetTranscript (VString EmptyString);
                SetSummary (VString EmptyString); Fetch (submit_request b);
                ConsoleError err; Alert "Failed to process audio."; SetLoading false]).
  { unfold handleSubmit. rewrite Hb.
    destruct Hbad as [-> | [[ok ->] | [[json ->] | ->]]].
    - eexists. reflexivity.
    - eexists. reflexivity.
    - destruct json as [data|]; [|eexists; reflexivity].
      cbn [after_fetch negb]. destruct (get data "error"); eexists; reflexivity.
    - eexists. reflexivity. }
  split; [exact Htrace|].
  destruct Htrace as (err & ->). cbn. now rewrite Hb.
Qed.

Lemma submit_failure_alerts_and_clears_witness :
  apply_effects ready (handleSubmit ready (fun _ => NetworkFailure))
  = {| isRecording := false; audioBlob := Some recorded;
       transcript := VString EmptyString; summary := VString EmptyString;
       loading := false |}.
Proof.
  apply (submit_failure_alerts_and_clears ready (fun _ => NetworkFailure) recorded);
    [reflexivity | left; reflexivity].
Defined.

(** X14. Whatever the server answers, a submit with a recording sends
    exactly one request (no retry): a POST to the route with the recording
    as the file of the field [audio]; it ends with the loading flag
    cleared and leaves the recording and the recording flag as they
    were. *)
Theorem submit_sends_one_request_and_settles
    (st : state) (server : fetch_request -> fetch_outcome) (b : blob) :
  audioBlob st = Some b ->
  filter (fun e => is_fetch e = true) (handleSubmit st server)
  = [Fetch {| fetch_url := "http://localhost:5001/api/transcribe-and-summarize";
              fetch_method := "POST";
              fetch_body := [{| part_name := "audio"; part_blob := b;
                                part_filename := "note.webm" |}] |}]
  /\ loading (apply_effects st (handleSubmit st server)) = false
  /\ audioBlob (apply_effects st (handleSubmit st server)) = Some b
  /\ isRecording (apply_effects st (handleSubmit st server)) = isRecording st.
Proof.
  intros Hb. split; [|split; [now apply handleSubmit_settles with b|]].
  - destruct (handleSubmit_with_recording st server b Hb) as (rest & -> & Hrest).
    assert (Hnone : filter (fun e => is_fetch e = true) rest = []).
    { induction Hrest as [|e es [He _] _ IH]; [reflexivity|].
      rewrite filter_cons, IH. destruct (decide (is_fetch e = true)); congruence. }
    rewrite !filter_app, Hnone. reflexivity.
  - destruct (apply_effects_keeps_recording st (handleSubmit st server)) as [-> ->].
    now split.
Qed.

Lemma submit_sends_one_request_and_settles_witness :
  loading (apply_effects ready
             (handleSubmit ready (fun _ => Reply false (Some VNull)))) = false.
Proof.
  apply (submit_sends_one_request_and_settles ready
           (fun _ => Reply false (Some VNull)) recorded).
  reflexivity.
Defined.

(** ** Reading the summary aloud *)

Section SpeechFacts.
Import Speech.

Variable number_to_string : spec_float -> string.







Lemma list_text_of_other (label : string) (summary : value) (k : string) :
  items_of (field summary k) = None ->
  list_text number_to_string label summary k = None.
Proof.
  unfold items_of, list_text, js_or.
  destruct (field summary k) as [| |b|f|s|l|o] eqn:Hf;
    try discriminate;
    destruct (truthy _) eqn:Htr; try discriminate; reflexivity.
Qed.





(** X16. A summary that reached the page with a field that is truthy
    but not an array (a string, a number, an object) makes "Play Summary"
    throw a TypeError: nothing is spoken. *)
Theorem speakSummary_throws_on_a_field_that_is_no_list
    (summary : value) (k : string) :
  truthy summary = true ->
  k = "key_points" \/ k = "action_items" ->
  items_of (field summary k) = None ->
  speakSummary number_to_string summary = TypeError.
Proof.
  intros Htr Hk Hbad. unfold speakSummary. rewrite Htr. cbn [negb].
  destruct Hk as [-> | ->].
  - now rewrite (list_text_of_other _ _ _ Hbad).
  - destruct (list_text number_to_string "Key point" summary "key_points");
      [|reflexivity].
    now rewrite (list_text_of_other _ _ _ Hbad).
Qed.

(** The degraded summary of the backend is read aloud as its one
    key point: the raw completion text, whatever it is. *)
Theorem speakSummary_reads_the_fallback (raw : string) :
  speakSummary number_to_string (fallback_summary (ContentText raw))
  = Speaks ("Here are the key points. Key point 1: " +:+ raw +:+ ".").
Proof. reflexivity. Qed.

End SpeechFacts.


Lemma speakSummary_throws_on_a_field_that_is_no_list_witness :
  Speech.speakSummary (fun _ => EmptyString)
    (VObject [("key_points", VString "none")])
  = Speech.TypeError.
Proof.
  apply (speakSummary_throws_on_a_field_that_is_no_list (fun _ => EmptyString)
           (VObject [("key_points", VString "none")]) "key_points");
    [reflexivity | left; reflexivity | reflexivity].
Defined.

(** ** Recording *)

Section RecordingFacts.
Import Recording.

Lemma run_app (c : component) (a1 a2 : list action) :
  run c (a1 ++ a2) = match run c a1 with
                     | Some c' => run c' a2
                     | None => None
                     end.
Proof.
  revert c. induction a1 as [|a a1 IH]; intros c; [reflexivity|].
  cbn. destruct (step c a); [apply IH | reflexivity].
Qed.

(** While it records, the recorder may hand over any number of chunks;
    they are kept in order. *)
Lemma run_hand_overs (c : component) (datas : list (list Byte.byte)) :
  recorder c = Some true ->
  run c (map HandOver datas)
  = Some {| ui := ui c; recorder := Some true; chunks := chunks c ++ datas |}.
Proof.
  revert c. induction datas as [|d datas IH]; intros [u r ch] Hr; cbn in Hr; subst r.
  - cbn. now rewrite app_nil_r.
  - cbn [map run step recorder]. unfold ondataavailable. cbn [ui recorder chunks].
    rewrite IH by reflexivity. cbn [ui chunks]. now rewrite <- app_assoc.
Qed.

(** X17. A recording from start to stop: whatever the component held
    before (an earlier recording, its chunks, a transcript, a summary), it
    ends with a blob of type audio/webm made of the chunks handed over
    since this start, in order, with transcript and summary cleared and the
    recording flag off. *)
Theorem recording_gives_the_blob_of_its_chunks
    (c : component) (datas : list (list Byte.byte)) (last : list Byte.byte) :
  isRecording (ui c) = false ->
  run c (ClickStart true :: map HandOver datas ++ [ClickStop last])
  = Some {| ui := {| isRecording := false;
                     audioBlob := Some {| blob_bytes := concat (datas ++ [last]);
                                          blob_type := "audio/webm" |};
                     transcript := VString EmptyString;
                     summary := VString EmptyString;
                     loading := loading (ui c) |};
            recorder := Some false;
            chunks := datas ++ [last] |}.
Proof.
  intros Hidle. cbn [run step]. rewrite Hidle. cbn [startRecording fst].
  rewrite run_app, run_hand_overs by reflexivity.
  reflexivity.
Qed.

Lemma recording_gives_the_blob_of_its_chunks_witness :
  run mounted [ClickStart true; HandOver clip; ClickStop clip]
  = Some {| ui := {| isRecording := false;
                     audioBlob := Some {| blob_bytes := clip ++ clip;
                                          blob_type := "audio/webm" |};
                     transcript := VString EmptyString;
                     summary := VString EmptyString;
                     loading := false |};
            recorder := Some false;
            chunks := [clip; clip] |}.
Proof.
  apply (recording_gives_the_blob_of_its_chunks mounted [clip] clip).
  reflexivity.
Defined.

(** When the microphone cannot be used, the start click shows the
    alert and starts nothing, but what was on the page is lost all the
    same: the earlier recording, transcript and summary are cleared, and
    the submit button is disabled. *)
Theorem refused_microphone_still_clears_the_page (c : component) :
  startRecording false c
  = ({| ui := {| isRecording := isRecording (ui c); audioBlob := None;
                 transcript := VString EmptyString;
                 summary := VString EmptyString;
                 loading := loading (ui c) |};
        recorder := recorder c;
        chunks := chunks c |},
     ["Could not access microphone. Please check permissions."])
  /\ submit_disabled (ui (fst (startRecording false c))) = true.
Proof.
  unfold startRecording, with_ui, cleared, submit_disabled. cbn.
  split; [reflexivity | apply orb_true_r].
Qed.

End RecordingFacts.

(** ** Frontend and backend together *)

Section StackFacts.
Import Stack.

Lemma wire_success_body (T : string) (S : value) :
  exists fields,
    wire (success_body T S) = VObject fields
    /\ obj_get fields "transcript" = VString T
    /\ obj_get fields "summary" = wire S.
Proof.
  unfold success_body. destruct S; eexists; repeat split.
Qed.

(** The request of the submit button is the one the app serves: the URL
    is the route on the default port, the method is POST, the one part of
    the form is the field that multer reads, and the page's origin is among
    the allowed ones. *)
Lemma browser_fetch_submit (page_origin : string) (PORT : option string)
    (P : providers) (filename : string) (files : gmap string (list Byte.byte))
    (b : blob) :
  In page_origin ALLOWED_ORIGINS ->
  port PORT = "5001" ->
  browser_fetch page_origin PORT P filename files (submit_request b)
  = reply_of (snd (serve P (Some (blob_bytes b)) filename files)).
Proof.
  intros Horigin Hport. unfold browser_fetch, server_origin. rewrite Hport.
  assert (Hallowed : existsb (String.eqb page_origin)
                       (("http://localhost:" +:+ "5001") :: ALLOWED_ORIGINS) = true).
  { apply existsb_exists. exists page_origin. split; [now right|].
    apply String.eqb_refl. }
  rewrite Hallowed. reflexivity.
Qed.

(** X19. From a page of an allowed origin, with the backend on its
    default port: when both providers answer and the reply can be read, one
    click on submit ends with the transcript of the transcription provider
    and the summary of parse-or-fallback, as JSON carries them, in the
    state of the page. *)
Theorem submit_end_to_end_success
    (page_origin : string) (PORT : option string) (P : providers)
    (filename : string) (files : gmap string (list Byte.byte))
    (st : state) (b : blob) (t : Backend.transcript) (r : chat_response)
    (raw : content) :
  In page_origin ALLOWED_ORIGINS ->
  port PORT = "5001" ->
  audioBlob st = Some b ->
  transcription P (blob_bytes b) = Resolved t ->
  text_missing t = false ->
  completion P (completion_request (OPENROUTER_API_KEY P) (text_of t)) = Resolved r ->
  first_content r = Returned raw ->
  apply_effects st
    (handleSubmit st (browser_fetch page_origin PORT P filename files))
  = {| isRecording := isRecording st; audioBlob := Some b;
       transcript := VString (text_of t);
       summary := wire (parse_or_fallback raw);
       loading := false |}.
Proof.
  intros Horigin Hport Hb Ht Hm Hc Hf.
  destruct (wire_success_body (text_of t) (parse_or_fallback raw))
    as (fields & Hw & Htr & Hsum).
  assert (Hreply : browser_fetch page_origin PORT P filename files (submit_request b)
                   = Reply true (Some (VObject fields))).
  { rewrite (browser_fetch_submit _ _ _ _ _ _ Horigin Hport).
    rewrite (serve_summarized P filename files (blob_bytes b) t r raw Ht Hm Hc Hf).
    unfold reply_of, success_world. cbn [snd res status_code body].
    now rewrite Hw. }
  unfold handleSubmit. rewrite Hb, Hreply.
  cbn [after_fetch negb get]. rewrite Htr, Hsum. cbn. now rewrite Hb.
Qed.

Lemma submit_end_to_end_success_witness :
  apply_effects ready
    (handleSubmit ready
       (browser_fetch "http://localhost:3000" None
          (stub (heard NOTE) (completes (ContentText CHATTY))) "a1b2" ∅))
  = {| isRecording := false; audioBlob := Some recorded;
       transcript := VString NOTE;
       summary := wire (parse_or_fallback (ContentText CHATTY));
       loading := false |}.
Proof.
  apply (submit_end_to_end_success "http://localhost:3000" None
           (stub (heard NOTE) (completes (ContentText CHATTY))) "a1b2" ∅
           ready recorded {| text := Some NOTE |}
           {| choices := Some [{| choice_message := Some (ContentText CHATTY) |}] |}
           (ContentText CHATTY));
    try reflexivity.
  left. reflexivity.
Defined.



End StackFacts.

(** Every request with an upload calls the transcription provider first,
    with the uploaded bytes. *)
Lemma outbound_calls_head
    (P : providers) (bytes : list Byte.byte) (filename : string)
    (files : gmap string (list Byte.byte)) :
  calls (snd (serve P (Some bytes) filename files)) = [CallTranscribe bytes]
  \/ calls (snd (serve P (Some bytes) filename files))
     = [CallTranscribe bytes;
        CallChat (completion_request (OPENROUTER_API_KEY P)
                    (match transcription P bytes with
                     | Resolved t => text_of t
                     | Rejected _ => EmptyString
                     end))].
Proof.
  destruct (transcription P bytes) as [t|e] eqn:Ht.
  2:{ left. now rewrite (serve_transcribe_rejected P filename files bytes e Ht). }
  destruct (text_missing t) eqn:Hm.
  { left. now rewrite (serve_transcript_missing P filename files bytes t Ht Hm). }
  right.
  destruct (completion P (completion_request (OPENROUTER_API_KEY P) (text_of t)))
    as [r|e] eqn:Hc.
  - destruct (first_content r) as [raw|e] eqn:Hf.
    + now rewrite (serve_summarized P filename files bytes t r raw Ht Hm Hc Hf).
    + now rewrite (serve_content_unreadable P filename files bytes t r e Ht Hm Hc Hf).
  - now rewrite (serve_chat_rejected P filename files bytes t e Ht Hm Hc).
Qed.

Section RecordToTranscript.
Import Recording Stack.

(** X21. What is recorded is what is transcribed: after a recording from
    start to stop, the form of the submit carries the recorded chunks, in
    order, as the field that the upload intake reads, and the backend hands
    exactly these bytes to the transcription provider as its first outbound
    call. *)
Theorem recorded_bytes_reach_the_transcriber
    (c c' : component) (datas : list (list Byte.byte)) (last : list Byte.byte)
    (P : providers) (filename : string) (files : gmap string (list Byte.byte)) :
  isRecording (ui c) = false ->
  run c (ClickStart true :: map HandOver datas ++ [ClickStop last]) = Some c' ->
  exists b,
    audioBlob (ui c') = Some b
    /\ uploaded (fetch_body (submit_request b)) = Some (Some (concat (datas ++ [last])))
    /\ head (calls (snd (serve P (Some (concat (datas ++ [last]))) filename files)))
       = Some (CallTranscribe (concat (datas ++ [last]))).
Proof.
  intros Hidle Hrun.
  cbn [run step] in Hrun. rewrite Hidle in Hrun. cbn [startRecording fst] in Hrun.
  rewrite run_app, run_hand_overs in Hrun by reflexivity.
  cbn in Hrun. injection Hrun as <-.
  eexists. split; [reflexivity|]. split; [reflexivity|].
  destruct (outbound_calls_head P (concat (datas ++ [last])) filename files) as [-> | ->];
    reflexivity.
Qed.

Lemma recorded_bytes_reach_the_transcriber_witness :
  exists b,
    audioBlob (ui {| ui := {| isRecording := false;
                              audioBlob := Some {| blob_bytes := clip ++ clip;
                                                   blob_type := "audio/webm" |};
                              transcript := VString EmptyString;
                              summary := VString EmptyString;
                              loading := false |};
                     recorder := Some false;
                     chunks := [clip; clip] |}) = Some b
    /\ uploaded (fetch_body (submit_request b)) = Some (Some (concat ([clip] ++ [clip])))
    /\ head (calls (snd (serve (stub (heard NOTE) (completes (ContentText CHATTY)))
                           (Some (concat ([clip] ++ [clip]))) "a1b2" ∅)))
       = Some (CallTranscribe (concat ([clip] ++ [clip]))).
Proof.
  apply (recorded_bytes_reach_the_transcriber mounted _ [clip] clip
           (stub (heard NOTE) (completes (ContentText CHATTY))) "a1b2" ∅);
    reflexivity.
Defined.

End RecordToTranscript.
